(** * EXE-GAN guided-recovery service: a shallow embedding

  This development embeds [service/exegan_service.py] (the class
  [ExeGanGuidedRecovery]) and the image-preparation part of
  [service/api.py] and states the service's specification over it.

  The Python code is effectful: it reads and writes a file system,
  spawns one external process and raises exceptions.  It is embedded
  in a state-and-exception monad over a [world] made of a file system
  and a trace of the actions the service itself performed.  The
  external model script and Pillow's pixel conversion are not part of
  the repository; they are section variables, so every statement holds
  for all of their behaviours. *)

From stdpp Require Import gmap strings list fin_maps pretty.
From Stdlib Require Import ZArith.

Open Scope Z_scope.

(** ** Paths

  An absolute, resolved path is the list of its components, innermost
  first: [/repo/images/mask] is ["mask"; "images"; "repo"].  With this
  order [Path.parent] is the tail and [p / name] is a cons. *)

Abbreviation path := (list string).

Module Paths.

Definition root : path := [].

(** [p / name] *)
Definition child (p : path) (name : string) : path := name :: p.

(** [p / rel] for a relative path given by its components, outermost
    first (["pre-train"; "psp_ffhq_encode.pt"]). *)
Definition join (p : path) (rel : list string) : path := rev rel ++ p.

(** [p.parent]; the root is its own parent. *)
Definition parent (p : path) : path := tail p.

(** [p.parents[1]]: raises [IndexError] (here [None]) when [p] has
    fewer than two components. *)
Definition parents1 (p : path) : option path :=
  match p with
  | _ :: _ :: g => Some g
  | _ => None
  end.

(** [str(p)] on a POSIX system. *)
Definition str (p : path) : string := "/" +:+ String.concat "/" (rev p).

(** [q] is an entry directly inside directory [d]. *)
Definition child_of (d q : path) : bool :=
  match q with
  | _ :: d' => bool_decide (d' = d)
  | [] => false
  end.

End Paths.

(** ** Images (the part of Pillow the service relies on) *)

Module Pil.

(** Pixel formats that have a PNG encoding and occur in the service:
    single-channel greyscale, RGB, and RGB with alpha. *)
Inductive mode := L | RGB | RGBA.

(** A decoded raster image: [im.mode], [im.size] = (width, height),
    and its pixel bytes. *)
Record image := Image { im_mode : mode; size : Z * Z; data : list Z }.

#[export] Instance mode_eq_dec : EqDecision mode.
Proof. solve_decision. Defined.

Section Convert.
(** Pillow's per-format pixel conversion, left abstract. *)
Variable convert_data : mode → mode → list Z → list Z.

(** [im.convert(m)]: a new image of mode [m] and the same size. *)
Definition convert (m : mode) (im : image) : image :=
  {| im_mode := m; size := size im;
     data := convert_data (im_mode im) m (data im) |}.
End Convert.

End Pil.

(** ** File system, exceptions, and the monad *)

Module Fs.
Import Pil.

(** What a regular file holds: a PNG encoding of an image (PNG is
    lossless, so the encoding is identified with the image), or bytes
    that are not an image. *)
Inductive content := Png (im : image) | Raw (bytes : string).

Inductive node := Dir | File (c : content).

(** Python exceptions raised by the service or by the library calls it
    makes. *)
Inductive exn :=
| ValueError (msg : string)
| FileNotFoundError (msg : string)
| FileExistsError (p : path)
| NotADirectoryError (p : path)
| IsADirectoryError (p : path)
| UnidentifiedImageError
| CalledProcessError (returncode : Z) (cmd : list string)
| IndexError.

(** Actions performed by the service process itself, in the order in
    which they happen. *)
Inductive event :=
| EvMkdir (p : path)
| EvUnlink (p : path)
| EvWrite (p : path) (c : content)
| EvSpawn (cmd : list string) (cwd : path) (returncode : Z).

Record world := World { fs : gmap path node; trace : list event }.

Inductive result (A : Type) := Ok (a : A) | Err (e : exn).
Arguments Ok {A} a.
Arguments Err {A} e.

Definition M (A : Type) : Type := world → result A * world.

Definition ret {A} (a : A) : M A := λ w, (Ok a, w).
Definition raise {A} (e : exn) : M A := λ w, (Err e, w).
Definition bind {A B} (m : M A) (k : A → M B) : M B :=
  λ w, match m w with
       | (Ok a, w') => k a w'
       | (Err e, w') => (Err e, w')
       end.

#[export] Instance M_ret : MRet M := @ret.
#[export] Instance M_bind : MBind M := λ A B k m, bind m k.

(** [for x in xs: body(x)], left to right, stopping at the first
    exception. *)
Fixpoint for_each {A} (xs : list A) (body : A → M unit) : M unit :=
  match xs with
  | [] => ret tt
  | x :: xs' => body x ;; for_each xs' body
  end.

(** The node at a path.  The root always is a directory. *)
Definition stat (f : gmap path node) (p : path) : option node :=
  match p with
  | [] => Some Dir
  | _ => f !! p
  end.

Definition log (e : event) (w : world) : world :=
  {| fs := fs w; trace := trace w ++ [e] |}.

Definition set_fs (f : gmap path node) (w : world) : world :=
  {| fs := f; trace := trace w |}.

(** [p.exists()], [p.is_file()], [p.is_dir()] *)
Definition path_exists (p : path) : M bool :=
  λ w, (Ok (bool_decide (is_Some (stat (fs w) p))), w).

Definition is_file (p : path) : M bool :=
  λ w, (Ok (match stat (fs w) p with Some (File _) => true | _ => false end), w).

Definition is_dir (p : path) : M bool :=
  λ w, (Ok (match stat (fs w) p with Some Dir => true | _ => false end), w).

(** [os.mkdir(p)] *)
Definition os_mkdir (p : path) : M unit :=
  λ w, match stat (fs w) p with
       | Some _ => (Err (FileExistsError p), w)
       | None =>
           match stat (fs w) (Paths.parent p) with
           | None => (Err (FileNotFoundError (Paths.str p)), w)
           | Some (File _) => (Err (NotADirectoryError p), w)
           | Some Dir => (Ok tt, log (EvMkdir p) (set_fs (<[p := Dir]> (fs w)) w))
           end
       end.

(** [p.mkdir(parents=False, exist_ok=True)]: [FileNotFoundError] is
    re-raised; any other [OSError] is swallowed when [p] is a
    directory. *)
Definition mkdir_exist_ok (p : path) : M unit :=
  λ w, match os_mkdir p w with
       | (Ok _, w') => (Ok tt, w')
       | (Err (FileNotFoundError m), w') => (Err (FileNotFoundError m), w')
       | (Err e, w') =>
           match is_dir p w' with
           | (Ok true, w'') => (Ok tt, w'')
           | (_, w'') => (Err e, w'')
           end
       end.

(** [p.mkdir(parents=True, exist_ok=True)]: on [FileNotFoundError] the
    parent is created first (unless [p] is the root), then [p] with
    [parents=False]. *)
Fixpoint mkdir_parents (p : path) : M unit :=
  λ w, match os_mkdir p w with
       | (Ok _, w') => (Ok tt, w')
       | (Err (FileNotFoundError m), w') =>
           match p with
           | [] => (Err (FileNotFoundError m), w')
           | _ :: d =>
               match mkdir_parents d w' with
               | (Ok _, w'') => mkdir_exist_ok p w''
               | (Err e, w'') => (Err e, w'')
               end
           end
       | (Err e, w') =>
           match is_dir p w' with
           | (Ok true, w'') => (Ok tt, w'')
           | (_, w'') => (Err e, w'')
           end
       end.

(** [list(d.iterdir())]: the entries directly inside [d]. *)
Definition entries (f : gmap path node) (d : path) : list path :=
  filter (λ q, Paths.child_of d q = true) (map_to_list f).*1.

Definition iterdir (d : path) : M (list path) :=
  λ w, match stat (fs w) d with
       | None => (Err (FileNotFoundError (Paths.str d)), w)
       | Some (File _) => (Err (NotADirectoryError d), w)
       | Some Dir => (Ok (entries (fs w) d), w)
       end.

(** [p.unlink()] *)
Definition unlink (p : path) : M unit :=
  λ w, match stat (fs w) p with
       | None => (Err (FileNotFoundError (Paths.str p)), w)
       | Some Dir => (Err (IsADirectoryError p), w)
       | Some (File _) => (Ok tt, log (EvUnlink p) (set_fs (delete p (fs w)) w))
       end.

(** [im.save(p)] with a [.png] name: creates or overwrites the regular
    file [p] with the PNG encoding of [im]. *)
Definition save (im : image) (p : path) : M unit :=
  λ w, match stat (fs w) (Paths.parent p) with
       | None => (Err (FileNotFoundError (Paths.str p)), w)
       | Some (File _) => (Err (NotADirectoryError p), w)
       | Some Dir =>
           match stat (fs w) p with
           | Some Dir => (Err (IsADirectoryError p), w)
           | _ => (Ok tt, log (EvWrite p (Png im))
                             (set_fs (<[p := File (Png im)]> (fs w)) w))
           end
       end.

(** [Image.open(io.BytesIO(bytes))] followed by loading the pixels. *)
Definition decode (c : content) : result image :=
  match c with
  | Png im => Ok im
  | Raw _ => Err UnidentifiedImageError
  end.

(** [Image.open(p)] followed by loading the pixels. *)
Definition image_open (p : path) : M image :=
  λ w, match stat (fs w) p with
       | None => (Err (FileNotFoundError (Paths.str p)), w)
       | Some Dir => (Err (IsADirectoryError p), w)
       | Some (File c) => (decode c, w)
       end.

End Fs.

(** ** The service: [service/exegan_service.py] *)

Module Service.
Import Pil Fs.

(** The attributes of an [ExeGanGuidedRecovery] object. *)
Record ExeGanGuidedRecovery := Build {
  repo_root : path;
  psp_ckpt : path;
  exegan_ckpt : path;
  mask_dir : path;
  gt_dir : path;
  exemplar_dir : path;
  out_dir : path;
  sample_size : Z
}.

(** Default arguments of [__init__]. *)
Definition default_psp_ckpt_rel : list string := ["pre-train"; "psp_ffhq_encode.pt"].
Definition default_exegan_ckpt_rel : list string := ["checkpoint"; "EXE_GAN_model.pt"].
Definition default_sample_size : Z := 256.

(** The four directories, in the order in which [__init__] and
    [_clear_io_dirs] go through them. *)
Definition io_dirs (self : ExeGanGuidedRecovery) : list path :=
  [mask_dir self; gt_dir self; exemplar_dir self; out_dir self].

(** [__init__].  [this_file] is [Path(__file__).resolve()]; [root] is the
    resolved [repo_root] argument, [None] when it is not given. *)
Definition resolve_root (this_file : path) (root : option path) : option path :=
  match root with
  | None => Paths.parents1 this_file
  | Some r => Some r
  end.

(** The attribute assignments of [__init__], for the repository root
    [r]. *)
Definition attributes (r : path) (psp_ckpt_rel exegan_ckpt_rel : list string)
    (sample_size : Z) : ExeGanGuidedRecovery :=
  {| repo_root := r;
     psp_ckpt := Paths.join r psp_ckpt_rel;
     exegan_ckpt := Paths.join r exegan_ckpt_rel;
     mask_dir := Paths.child (Paths.child r "images") "mask";
     gt_dir := Paths.child (Paths.child r "images") "target";
     exemplar_dir := Paths.child (Paths.child r "images") "exemplar";
     out_dir := Paths.child r "recover_out";
     sample_size := sample_size |}.

Definition init (this_file : path) (root : option path)
    (psp_ckpt_rel exegan_ckpt_rel : list string) (sample_size : Z)
    : M ExeGanGuidedRecovery :=
  r ← match resolve_root this_file root with
      | Some r => mret r
      | None => raise IndexError
      end;
  let self := attributes r psp_ckpt_rel exegan_ckpt_rel sample_size in
  for_each (io_dirs self) mkdir_parents ;;
  mret self.

(** [_clear_io_dirs]: the body of the inner loop, the inner loop over
    one directory, and the outer loop. *)
Definition unlink_if_file (f : path) : M unit :=
  b ← is_file f;
  if b : bool then unlink f else mret tt.

Definition clear_dir (d : path) : M unit :=
  files ← iterdir d;
  for_each files unlink_if_file.

Definition _clear_io_dirs (self : ExeGanGuidedRecovery) : M unit :=
  for_each (io_dirs self) clear_dir.

(** How Python formats a pair of integers in an f-string. *)
Definition str_size (s : Z * Z) : string :=
  "(" +:+ pretty s.1 +:+ ", " +:+ pretty s.2 +:+ ")".

(** The messages of the three size checks of [_save_triplet]. *)
Definition size_error (who what : string) (expected got : Z * Z) : exn :=
  ValueError (who +:+ " must be " +:+ str_size expected +:+ ", got "
              +:+ str_size got +:+ ". " +:+ "Do " +:+ what
              +:+ " cropping/resizing on the client before calling EXE-GAN.").

(** [f"{index}.png"] *)
Definition staged_name (index : Z) : string := pretty index +:+ ".png".

(** [_save_triplet] *)
Definition _save_triplet (self : ExeGanGuidedRecovery)
    (test_img mask_img exemplar_img : image) (index : Z) : M unit :=
  let expected := (sample_size self, sample_size self) in
  if bool_decide (size test_img ≠ expected) then
    raise (size_error "test_img" "face" expected (size test_img))
  else if bool_decide (size mask_img ≠ expected) then
    raise (size_error "mask_img" "mask" expected (size mask_img))
  else if bool_decide (size exemplar_img ≠ expected) then
    raise (size_error "exemplar_img" "exemplar" expected (size exemplar_img))
  else
    save test_img (Paths.child (gt_dir self) (staged_name index)) ;;
    save mask_img (Paths.child (mask_dir self) (staged_name index)) ;;
    save exemplar_img (Paths.child (exemplar_dir self) (staged_name index)).

(** The argument vector built by [_run_script]. *)
Definition script_cmd (self : ExeGanGuidedRecovery) (sample_times : Z) : list string :=
  [ "python";
    "guided_recovery.py";
    "--psp_checkpoint_path";
    Paths.str (psp_ckpt self);
    "--ckpt";
    Paths.str (exegan_ckpt self);
    "--masked_dir";
    Paths.str (mask_dir self);
    "--gt_dir";
    Paths.str (gt_dir self);
    "--exemplar_dir";
    Paths.str (exemplar_dir self);
    "--sample_times";
    pretty sample_times;
    "--eval_dir";
    Paths.str (out_dir self) ].

(** [f"{index}_{j}_inpaint.png"] *)
Definition output_name (index j : Z) : string :=
  pretty index +:+ "_" +:+ pretty j +:+ "_inpaint.png".

Definition output_path (self : ExeGanGuidedRecovery) (index j : Z) : path :=
  Paths.child (out_dir self) (output_name index j).

(** [range(n)] *)
Definition range (n : Z) : list Z := Z.of_nat <$> seq 0 (Z.to_nat n).

Section Run.

(** The external process.  [script cmd cwd f] is what running the
    argument vector [cmd] in working directory [cwd] on file system [f]
    leaves behind: the file system at exit and the exit status.  Nothing
    is assumed about it. *)
Variable script : list string → path → gmap path node → gmap path node * Z.

(** Pillow's pixel conversion. *)
Variable convert_data : mode → mode → list Z → list Z.

(** [subprocess.run(cmd, cwd=cwd, check=True)]: one process, waited
    for; a non-zero status raises [CalledProcessError]. *)
Definition subprocess_run_check (cmd : list string) (cwd : path) : M unit :=
  λ w, let '(f, rc) := script cmd cwd (fs w) in
       let w' := log (EvSpawn cmd cwd rc) (set_fs f w) in
       if bool_decide (rc = 0) then (Ok tt, w')
       else (Err (CalledProcessError rc cmd), w').

(** [_run_script] *)
Definition _run_script (self : ExeGanGuidedRecovery) (sample_times : Z) : M unit :=
  subprocess_run_check (script_cmd self sample_times) (repo_root self).

(** The body of the loop of [_load_outputs], over the remaining indices
    [js], with the images collected so far. *)
Fixpoint load_loop (self : ExeGanGuidedRecovery) (index : Z)
    (js : list Z) (imgs : list image) : M (list image) :=
  match js with
  | [] => mret imgs
  | j :: js' =>
      let path := output_path self index j in
      b ← path_exists path;
      if negb b then
        raise (FileNotFoundError ("Missing EXE-GAN output: " +:+ Paths.str path))
      else
        im ← image_open path;
        load_loop self index js' (imgs ++ [convert convert_data RGB im])
  end.

(** [_load_outputs] *)
Definition _load_outputs (self : ExeGanGuidedRecovery) (index sample_times : Z)
    : M (list image) :=
  load_loop self index (range sample_times) [].

(** [run] *)
Definition run (self : ExeGanGuidedRecovery)
    (test_img mask_img exemplar_img : image) (sample_times : Z) : M (list image) :=
  _clear_io_dirs self ;;
  _save_triplet self test_img mask_img exemplar_img 0 ;;
  _run_script self sample_times ;;
  _load_outputs self 0 sample_times.

End Run.

(** The first two steps of [run]: clearing, then validation and
    staging. *)
Definition stage (self : ExeGanGuidedRecovery)
    (test_img mask_img exemplar_img : image) : M unit :=
  _clear_io_dirs self ;;
  _save_triplet self test_img mask_img exemplar_img 0.

End Service.

(** ** Vocabulary of the specification *)

Module Spec.
Import Pil Fs Service.

(** The four staging directories exist (what [__init__] establishes). *)
Definition dirs_exist (self : ExeGanGuidedRecovery) (f : gmap path node) : Prop :=
  Forall (λ d, stat f d = Some Dir) (io_dirs self).

(** No directory sits where a staged input image is to be written. *)
Definition slots_free (self : ExeGanGuidedRecovery) (f : gmap path node) : Prop :=
  Forall (λ d, stat f (Paths.child d (staged_name 0)) ≠ Some Dir)
         [gt_dir self; mask_dir self; exemplar_dir self].

Definition staging_ok (self : ExeGanGuidedRecovery) (f : gmap path node) : Prop :=
  dirs_exist self f ∧ slots_free self f.

(** All three images have the configured size. *)
Definition sizes_ok (self : ExeGanGuidedRecovery) (t m e : image) : Prop :=
  Forall (λ im, size im = (sample_size self, sample_size self)) [t; m; e].

(** The file system after staging [t], [m], [e] on [f]. *)
Definition staged_fs (self : ExeGanGuidedRecovery) (t m e : image)
    (f : gmap path node) : gmap path node :=
  <[Paths.child (exemplar_dir self) (staged_name 0) := File (Png e)]>
    (<[Paths.child (mask_dir self) (staged_name 0) := File (Png m)]>
       (<[Paths.child (gt_dir self) (staged_name 0) := File (Png t)]> f)).

Definition staged_writes (self : ExeGanGuidedRecovery) (t m e : image) : list event :=
  [EvWrite (Paths.child (gt_dir self) (staged_name 0)) (Png t);
   EvWrite (Paths.child (mask_dir self) (staged_name 0)) (Png m);
   EvWrite (Paths.child (exemplar_dir self) (staged_name 0)) (Png e)].

(** [p] is an entry directly inside one of the directories [ds]. *)
Definition inside (ds : list path) (p : path) : bool :=
  existsb (λ d, Paths.child_of d p) ds.

(** The file system once every regular file directly inside one of [ds]
    is removed, given by its lookups. *)
Definition cleared (ds : list path) (f : gmap path node) (p : path) : option node :=
  match f !! p with
  | Some (File c) => if inside ds p then None else Some (File c)
  | o => o
  end.

(** The processes spawned, and the files written, in a trace. *)
Definition spawns (tr : list event) : list (list string * path * Z) :=
  omap (λ ev, match ev with EvSpawn c d rc => Some (c, d, rc) | _ => None end) tr.

Definition writes (tr : list event) : list (path * content) :=
  omap (λ ev, match ev with EvWrite p c => Some (p, c) | _ => None end) tr.

Definition unlinks (tr : list event) : list path :=
  omap (λ ev, match ev with EvUnlink p => Some p | _ => None end) tr.

(** The directories are where [__init__] puts them. *)
Definition laid_out (self : ExeGanGuidedRecovery) : Prop :=
  mask_dir self = Paths.child (Paths.child (repo_root self) "images") "mask"
  ∧ gt_dir self = Paths.child (Paths.child (repo_root self) "images") "target"
  ∧ exemplar_dir self = Paths.child (Paths.child (repo_root self) "images") "exemplar"
  ∧ out_dir self = Paths.child (repo_root self) "recover_out".

(** A path with all its ancestors, up to the root. *)
Fixpoint ancestors (p : path) : list path :=
  match p with
  | [] => [[]]
  | _ :: d => p :: ancestors d
  end.

Definition is_regular (o : option node) : bool :=
  match o with
  | Some (File _) => true
  | _ => false
  end.

(** No regular file sits at [p] or at one of its ancestors, so nothing
    prevents creating the directory [p]. *)
Definition unobstructed (f : gmap path node) (p : path) : Prop :=
  Forall (λ q, is_regular (stat f q) = false) (ancestors p).

(** What a successful directory creation may change: the trace grows by
    [mkdir] actions, existing entries stay, no regular file appears. *)
Definition extends_by_dirs (w w' : world) : Prop :=
  (∃ ps, trace w' = trace w ++ (EvMkdir <$> ps))
  ∧ (∀ q nd, stat (fs w) q = Some nd → stat (fs w') q = Some nd)
  ∧ (∀ q c, stat (fs w') q = Some (File c) → stat (fs w) q = Some (File c)).

(** A computation that spawns no process, whatever its outcome. *)
Definition quiet {A} (m : M A) : Prop :=
  ∀ w r w', m w = (r, w') → spawns (trace w') = spawns (trace w).

(** The expected output file of sample [j] holds the image [im]. *)
Definition output_is (self : ExeGanGuidedRecovery) (f : gmap path node)
    (j : Z) (im : image) : Prop :=
  stat f (output_path self 0 j) = Some (File (Png im)).

End Spec.

(** ** The transport adapter: the image preparation of [service/api.py] *)

Module Api.
Import Pil Fs Service.

Section Adapter.

Variable script : list string → path → gmap path node → gmap path node * Z.
Variable convert_data : mode → mode → list Z → list Z.

(** Step 2 of [guided_recovery]: the three uploads are decoded and
    converted, the test and exemplar images to RGB, the mask to L. *)
Definition read_images (test_bytes mask_bytes ex_bytes : content)
    : result (image * image * image) :=
  match decode test_bytes with
  | Err e => Err e
  | Ok t =>
      let test_img := convert convert_data RGB t in
      match decode mask_bytes with
      | Err e => Err e
      | Ok m =>
          let mask_img := convert convert_data L m in
          match decode ex_bytes with
          | Err e => Err e
          | Ok x => Ok (test_img, mask_img, convert convert_data RGB x)
          end
      end
  end.

(** [guided_recovery]: the response body is the PNG encoding of the
    first output. *)
Definition guided_recovery (service : ExeGanGuidedRecovery)
    (test_bytes mask_bytes ex_bytes : content) (sample_times : Z) : M content :=
  match read_images test_bytes mask_bytes ex_bytes with
  | Err e => raise e
  | Ok (test_img, mask_img, ex_img) =>
      outputs ← run script convert_data service test_img mask_img ex_img sample_times;
      match outputs with
      | [] => raise IndexError
      | first :: _ => mret (Png first)
      end
  end.

End Adapter.

End Api.

(** ** Concrete services, worlds and processes *)

Module Demo.
Import Pil Fs Service.

Definition this_file : path := ["exegan_service.py"; "service"; "EXE-GAN"; "srv"].

(** A service for 2x2 images rooted at [/srv/EXE-GAN]. *)
Definition svc : ExeGanGuidedRecovery :=
  attributes ["EXE-GAN"; "srv"] default_psp_ckpt_rel default_exegan_ckpt_rel 2.

Definition rgb (v : Z) : image :=
  {| im_mode := RGB; size := (2, 2); data := replicate 12 v |}.
Definition grey (v : Z) : image :=
  {| im_mode := L; size := (2, 2); data := replicate 4 v |}.
(** A target image of the wrong size. *)
Definition wide : image :=
  {| im_mode := RGB; size := (3, 2); data := replicate 18 7 |}.

(** A pixel conversion: greyscale is replicated into three channels,
    everything else is kept. *)
Definition spread (from to : mode) (d : list Z) : list Z :=
  match from, to with
  | L, RGB => d ≫= (λ v, [v; v; v])
  | _, _ => d
  end.

Definition fresh : world := {| fs := ∅; trace := [] |}.

(** The world right after constructing the service on an empty disk. *)
Definition ready : world :=
  (init this_file None default_psp_ckpt_rel default_exegan_ckpt_rel 2 fresh).2.

(** A world with leftovers of an earlier request: two outputs, a staged
    mask, a subdirectory of the output directory and a file inside
    it. *)
Definition used : world :=
  {| fs := <[output_path svc 0 0 := File (Png (rgb 9))]>
             (<[output_path svc 0 1 := File (Png (rgb 8))]>
                (<[Paths.child (mask_dir svc) "0.png" := File (Png (grey 1))]>
                   (<["keep" :: out_dir svc := Dir]>
                      (<["old.png" :: "keep" :: out_dir svc := File (Raw "x")]>
                         (fs ready)))));
     trace := trace ready |}.

(** A process that writes [k] RGB samples and exits with [rc]. *)
Definition writes_samples (k : nat) (rc : Z)
    (cmd : list string) (cwd : path) (f : gmap path node) : gmap path node * Z :=
  (foldr (λ j g, <[output_path svc 0 (Z.of_nat j) := File (Png (rgb (Z.of_nat j)))]> g)
         f (seq 0 k), rc).

(** A process that writes a file that is not an image as sample 0,
    nothing else, and exits with 0. *)
Definition writes_garbage
    (cmd : list string) (cwd : path) (f : gmap path node) : gmap path node * Z :=
  (<[output_path svc 0 0 := File (Raw "not a png")]> f, 0).

End Demo.

(** ** The local test driver: [service/test_run.py] *)

Module TestRun.
Import Pil Fs Service.

(** What the driver acts on: the world of the service, and the lines
    printed on standard output. *)
Record console := Console { disk : world; stdout : list string }.

Definition C (A : Type) : Type := console → result A * console.

#[export] Instance C_ret : MRet C := λ A a c, (Ok a, c).
#[export] Instance C_bind : MBind C :=
  λ A B k m c, match m c with
               | (Ok a, c') => k a c'
               | (Err e, c') => (Err e, c')
               end.

(** A computation on the world, run on the disk of the console. *)
Definition lift {A} (m : M A) : C A :=
  λ c, let '(r, w) := m (disk c) in (r, {| disk := w; stdout := stdout c |}).

(** [print(line)] *)
Definition print (line : string) : C unit :=
  λ c, (Ok tt, {| disk := disk c; stdout := stdout c ++ [line] |}).

(** The size the driver enforces. *)
Definition enforced_size : Z * Z := (256, 256).

Definition missing_examples (examples_dir : path) : exn :=
  FileNotFoundError ("Missing example images in " +:+ Paths.str examples_dir
                     +:+ ". " +:+ "Expected test.png, mask.png, exemplar.png").

Section Main.

Variable script : list string → path → gmap path node → gmap path node * Z.
Variable convert_data : mode → mode → list Z → list Z.

(** Pillow's resampling, left abstract. *)
Variable resize_data : mode → Z * Z → Z * Z → list Z → list Z.

(** [im.resize(sz)]: a new image of the same mode and of size [sz]. *)
Definition resize (sz : Z * Z) (im : image) : image :=
  {| im_mode := im_mode im; size := sz;
     data := resize_data (im_mode im) (size im) sz (data im) |}.

(** [Image.open(p).convert(m).resize(size)] *)
Definition load_example (p : path) (m : mode) : C image :=
  im ← lift (image_open p);
  mret (resize enforced_size (convert convert_data m im)).

(** [main].  [this_file] is the resolved [__file__] of [test_run.py],
    [service_file] that of [exegan_service.py]. *)
Definition main (this_file service_file : path) : C unit :=
  repo_root ← lift (match Paths.parents1 this_file with
                    | Some r => mret r
                    | None => raise IndexError
                    end);
  let examples_dir := Paths.child (Paths.child repo_root "service") "examples" in
  let test_path := Paths.child examples_dir "test.png" in
  let mask_path := Paths.child examples_dir "mask.png" in
  let ex_path := Paths.child examples_dir "exemplar.png" in
  has_test ← lift (path_exists test_path);
  has_mask ← (if has_test : bool then lift (path_exists mask_path) else mret false);
  has_ex ← (if has_mask : bool then lift (path_exists ex_path) else mret false);
  if negb has_ex then lift (raise (missing_examples examples_dir))
  else
    test_img ← load_example test_path RGB;
    mask_img ← load_example mask_path L;
    ex_img ← load_example ex_path RGB;
    service ← lift (init service_file (Some repo_root) default_psp_ckpt_rel
                      default_exegan_ckpt_rel default_sample_size);
    print "Running EXE-GAN guided recovery..." ;;
    outputs ← lift (run script convert_data service test_img mask_img ex_img 1);
    let out_path := Paths.child examples_dir "reconstructed.png" in
    match outputs with
    | [] => lift (raise IndexError)
    | first :: _ => lift (save first out_path)
    end ;;
    print ("Saved reconstructed image to: " +:+ Paths.str out_path).

End Main.

End TestRun.

(** ** Further vocabulary *)

Module Laws.
Import Pil Fs Service Spec.

(** A computation that never raises a [ValueError]. *)
Definition never_value_error {A} (m : M A) : Prop :=
  ∀ w e w', m w = (Err e, w') → ∀ msg, e ≠ ValueError msg.

(** A computation that removes no directory, whatever its outcome. *)
Definition keeps_dirs {A} (m : M A) : Prop :=
  ∀ w q, stat (fs w) q = Some Dir → stat (fs (m w).2) q = Some Dir.

(** The error [iterdir] raises on [d] when [d] is not a directory. *)
Definition not_a_dir_error (d : path) (e : exn) : Prop :=
  e = FileNotFoundError (Paths.str d) ∨ e = NotADirectoryError d.

(** A driver computation that never raises a [ValueError]. *)
Definition never_value_error_C {A} (m : TestRun.C A) : Prop :=
  ∀ c e c', m c = (Err e, c') → ∀ msg, e ≠ ValueError msg.

End Laws.

(** ** More concrete inputs *)

Module Scenario.
Import Pil Fs Service Demo.

(** A disk on which [images] is a regular file of the repository. *)
Definition blocked : world :=
  {| fs := <[["EXE-GAN"; "srv"] := Dir]>
             (<[["srv"] := Dir]>
                (<[["images"; "EXE-GAN"; "srv"] := File (Raw "notes")]> ∅));
     trace := [] |}.

(** A resampling for the examples: the first bytes are kept. *)
Definition crop (m : mode) (from to : Z * Z) (d : list Z) : list Z :=
  take (Z.to_nat (to.1 * to.2)) d.

Definition driver_file : path := ["test_run.py"; "service"; "EXE-GAN"; "srv"].

Definition examples_dir : path := ["examples"; "service"; "EXE-GAN"; "srv"].

(** A 256x256 image. *)
Definition big (v : Z) (m : mode) : image :=
  {| im_mode := m; size := (256, 256); data := [v] |}.

(** A disk holding the three example images, before the service was
    ever constructed. *)
Definition with_examples : world :=
  {| fs := <["test.png" :: examples_dir := File (Png (rgb 1))]>
             (<["mask.png" :: examples_dir := File (Png (rgb 2))]>
                (<["exemplar.png" :: examples_dir := File (Png (grey 3))]>
                   (<[examples_dir := Dir]>
                      (<[["service"; "EXE-GAN"; "srv"] := Dir]>
                         (<[["EXE-GAN"; "srv"] := Dir]>
                            (<[["srv"] := Dir]> ∅))))));
     trace := [] |}.

(** The service the driver constructs. *)
Definition svc256 : ExeGanGuidedRecovery :=
  attributes ["EXE-GAN"; "srv"] default_psp_ckpt_rel default_exegan_ckpt_rel 256.

(** A process that writes one 256x256 sample and exits with 0. *)
Definition one_sample
    (cmd : list string) (cwd : path) (f : gmap path node) : gmap path node * Z :=
  (<[output_path svc256 0 0 := File (Png (big 5 RGBA))]> f, 0).

(** The disk with the examples once the service has been constructed
    on it. *)
Definition prepared_disk : world :=
  (init Demo.this_file None default_psp_ckpt_rel default_exegan_ckpt_rel 256
     with_examples).2.

(** The world with leftovers, its target directory removed. *)
Definition used_without_target : world :=
  {| fs := delete (gt_dir svc) (fs used); trace := trace used |}.

(** The driver started on an empty disk, and on the prepared one. *)
Definition on_empty_disk : TestRun.console :=
  {| TestRun.disk := fresh; TestRun.stdout := [] |}.

Definition on_prepared_disk : TestRun.console :=
  {| TestRun.disk := prepared_disk; TestRun.stdout := [] |}.

End Scenario.

(** * Properties *)

Import Pil Fs Service Spec.

(** ** The monad *)

Lemma bind_ok {A B} (m : M A) (k : A → M B) w a w' :
  m w = (Ok a, w') → (m ≫= k) w = k a w'.
Proof. intros H. unfold mbind, M_bind, bind. by rewrite H. Qed.

Lemma bind_err {A B} (m : M A) (k : A → M B) w e w' :
  m w = (Err e, w') → (m ≫= k) w = (Err e, w').
Proof. intros H. unfold mbind, M_bind, bind. by rewrite H. Qed.

Lemma stat_cons f x p : stat f (x :: p) = f !! (x :: p).
Proof. reflexivity. Qed.

Lemma for_each_cons {A} (x : A) xs (body : A → M unit) w :
  for_each (x :: xs) body w = (body x ≫= λ _, for_each xs body) w.
Proof. reflexivity. Qed.

(** ** Clearing *)

Section Clearing.

Lemma unlink_if_file_file w p c :
  stat (fs w) p = Some (File c) →
  unlink_if_file p w
    = (Ok tt, log (EvUnlink p) (set_fs (delete p (fs w)) w)).
Proof.
  intros H. unfold unlink_if_file, mbind, M_bind, bind, is_file, unlink.
  rewrite H. cbv beta. by rewrite H.
Qed.

Lemma unlink_if_file_skip w p :
  (∀ c, stat (fs w) p ≠ Some (File c)) →
  unlink_if_file p w = (Ok tt, w).
Proof.
  intros H. unfold unlink_if_file, mbind, M_bind, bind, is_file.
  destruct (stat (fs w) p) as [[|c]|]; try done. by destruct (H c).
Qed.

(** The inner loop of [_clear_io_dirs] never raises, removes exactly
    the regular files among the listed entries, and only unlinks. *)
Lemma remove_files_spec (l : list path) : ∀ w,
  [] ∉ l →
  ∃ f1 us,
    for_each l unlink_if_file w
      = (Ok tt, {| fs := f1; trace := trace w ++ (EvUnlink <$> us) |})
    ∧ ∀ p, f1 !! p = match fs w !! p with
                     | Some (File c) =>
                         if bool_decide (p ∈ l) then None else Some (File c)
                     | o => o
                     end.
Proof.
  induction l as [|x l IH]; intros w Hroot.
  - exists (fs w), []. split.
    + destruct w; simpl. by rewrite app_nil_r.
    + intros p. destruct (fs w !! p) as [[|c]|]; done.
  - apply not_elem_of_cons in Hroot as [Hx Hl].
    destruct x as [|x0 x']; [done|].
    assert (Hmem : ∀ p, p ≠ x0 :: x' →
              bool_decide (p ∈ (x0 :: x') :: l) = bool_decide (p ∈ l)).
    { intros p Hne. apply bool_decide_ext. rewrite elem_of_cons.
      split; [intros [?|?]; done | by right]. }
    destruct (fs w !! (x0 :: x')) as [[|c]|] eqn:Hlook.
    + destruct (IH w Hl) as (f1 & us & Hrun & Hf1).
      exists f1, us. split.
      * rewrite for_each_cons.
        erewrite bind_ok by (apply unlink_if_file_skip; rewrite stat_cons, Hlook; done).
        exact Hrun.
      * intros p. rewrite Hf1. destruct (fs w !! p) as [[|c]|] eqn:Hp; try done.
        rewrite Hmem; [done | congruence].
    + destruct (IH (log (EvUnlink (x0 :: x'))
                     (set_fs (delete (x0 :: x') (fs w)) w)) Hl)
        as (f1 & us & Hrun & Hf1).
      exists f1, ((x0 :: x') :: us). split.
      * rewrite for_each_cons.
        erewrite bind_ok by (eapply unlink_if_file_file; rewrite stat_cons; exact Hlook).
        rewrite Hrun. cbn [log set_fs trace fs fmap list_fmap].
        by rewrite <- app_assoc.
      * intros p. rewrite Hf1. cbn [log set_fs fs].
        destruct (decide (p = x0 :: x')) as [->|Hne].
        -- rewrite lookup_delete_eq, Hlook.
           rewrite bool_decide_eq_true_2; [done | by left].
        -- rewrite lookup_delete_ne by done.
           destruct (fs w !! p) as [[|c']|]; try done.
           by rewrite Hmem.
    + destruct (IH w Hl) as (f1 & us & Hrun & Hf1).
      exists f1, us. split.
      * rewrite for_each_cons.
        erewrite bind_ok by (apply unlink_if_file_skip; rewrite stat_cons, Hlook; done).
        exact Hrun.
      * intros p. rewrite Hf1. destruct (fs w !! p) as [[|c]|] eqn:Hp; try done.
        rewrite Hmem; [done | congruence].
Qed.

Lemma elem_of_entries f d p :
  p ∈ entries f d ↔ Paths.child_of d p = true ∧ is_Some (f !! p).
Proof.
  unfold entries. rewrite list_elem_of_filter, list_elem_of_fmap.
  split.
  - intros [Hc ([q n] & -> & Hin)]. split; [done|].
    apply elem_of_map_to_list in Hin. eauto.
  - intros [Hc [n Hn]]. split; [done|]. exists (p, n). split; [done|].
    by apply elem_of_map_to_list.
Qed.

Lemma root_not_entry f d : [] ∉ entries f d.
Proof. rewrite elem_of_entries. intros [Hc _]. done. Qed.

(** Clearing one existing directory. *)
Lemma clear_dir_spec d w :
  stat (fs w) d = Some Dir →
  ∃ f1 us,
    clear_dir d w
      = (Ok tt, {| fs := f1; trace := trace w ++ (EvUnlink <$> us) |})
    ∧ ∀ p, f1 !! p = cleared [d] (fs w) p.
Proof.
  intros Hd.
  destruct (remove_files_spec (entries (fs w) d) w (root_not_entry _ _))
    as (f1 & us & Hrun & Hf1).
  exists f1, us. split.
  - unfold clear_dir. erewrite bind_ok; [exact Hrun|].
    unfold iterdir. by rewrite Hd.
  - intros p. rewrite Hf1. unfold cleared, inside. cbn [existsb].
    rewrite orb_false_r.
    destruct (fs w !! p) as [[|c]|] eqn:Hp; try done.
    destruct (Paths.child_of d p) eqn:Hc.
    + rewrite bool_decide_eq_true_2; [done|]. apply elem_of_entries. eauto.
    + rewrite bool_decide_eq_false_2; [done|]. rewrite elem_of_entries.
      intros [? _]. congruence.
Qed.

Lemma cleared_cons d ds f f1 p :
  (∀ q, f1 !! q = cleared [d] f q) →
  cleared ds f1 p = cleared (d :: ds) f p.
Proof.
  intros Hf1. unfold cleared at 1. rewrite Hf1. unfold cleared, inside.
  cbn [existsb]. rewrite orb_false_r.
  destruct (f !! p) as [[|c]|]; try done.
  by destruct (Paths.child_of d p).
Qed.

Lemma cleared_dir ds f p : f !! p = Some Dir → cleared ds f p = Some Dir.
Proof. intros H. unfold cleared. by rewrite H. Qed.

Lemma stat_cleared_dir ds f f1 p :
  (∀ q, f1 !! q = cleared ds f q) →
  stat f p = Some Dir → stat f1 p = Some Dir.
Proof.
  intros Hf1. destruct p as [|x p]; [done|]. rewrite !stat_cons, Hf1.
  apply cleared_dir.
Qed.

(** Clearing a list of existing directories ([_clear_io_dirs] for the
    four staging directories): it succeeds, its only actions are
    unlinks, and the resulting file system is [cleared]. *)
Lemma clear_dirs_spec (ds : list path) : ∀ w,
  Forall (λ d, stat (fs w) d = Some Dir) ds →
  ∃ f1 us,
    for_each ds clear_dir w
      = (Ok tt, {| fs := f1; trace := trace w ++ (EvUnlink <$> us) |})
    ∧ ∀ p, f1 !! p = cleared ds (fs w) p.
Proof.
  induction ds as [|d ds IH]; intros w Hds.
  - exists (fs w), []. split.
    + destruct w; simpl. by rewrite app_nil_r.
    + intros p. unfold cleared, inside. cbn [existsb].
      by destruct (fs w !! p) as [[|c]|].
  - apply Forall_cons in Hds as [Hd Hds].
    destruct (clear_dir_spec d w Hd) as (f1 & us & Hrun & Hf1).
    destruct (IH {| fs := f1; trace := trace w ++ (EvUnlink <$> us) |})
      as (f2 & us' & Hrun' & Hf2).
    { eapply Forall_impl; [exact Hds|]. intros q Hq.
      eapply stat_cleared_dir; [exact Hf1 | exact Hq]. }
    exists f2, (us ++ us'). split.
    + rewrite for_each_cons. erewrite bind_ok by exact Hrun.
      rewrite Hrun'. cbn [trace fs]. by rewrite fmap_app, app_assoc.
    + intros p. rewrite Hf2. cbn [fs]. by apply cleared_cons.
Qed.

End Clearing.

(** ** Validation and staging *)

Section Staging.

Lemma stat_insert f (x : string) (d : path) n q :
  stat (<[x :: d := n]> f) q
    = if decide (q = x :: d) then Some n else stat f q.
Proof.
  destruct q as [|y q]; [by rewrite decide_False|].
  rewrite !stat_cons. destruct (decide (y :: q = x :: d)) as [->|Hne].
  - by rewrite lookup_insert_eq.
  - by rewrite lookup_insert_ne.
Qed.

(** Writing a regular file where no directory sits changes no
    directory. *)
Lemma stat_insert_file_dir f (x : string) (d : path) c q :
  stat f (x :: d) ≠ Some Dir →
  stat (<[x :: d := File c]> f) q = Some Dir ↔ stat f q = Some Dir.
Proof.
  intros Hp. rewrite stat_insert. destruct (decide (q = x :: d)) as [->|]; [|done].
  split; [done | intros; contradiction].
Qed.

Lemma save_ok im (x : string) (d : path) w :
  stat (fs w) d = Some Dir →
  stat (fs w) (x :: d) ≠ Some Dir →
  save im (x :: d) w
    = (Ok tt, log (EvWrite (x :: d) (Png im))
                  (set_fs (<[x :: d := File (Png im)]> (fs w)) w)).
Proof.
  intros Hd Hp. unfold save. cbn [Paths.parent tail]. rewrite Hd.
  destruct (stat (fs w) (x :: d)) as [[|c]|]; done.
Qed.

(** The size checks come before every write: when a check fails,
    [_save_triplet] raises the corresponding [ValueError] and leaves the
    world as it found it.  The image named in the error is the first
    one, in the order target, mask, exemplar, whose size is wrong. *)
Lemma save_triplet_rejects self t m e idx w :
  ¬ sizes_ok self t m e →
  ∃ who what im,
    (who, what, im) ∈ [("test_img", "face", t); ("mask_img", "mask", m);
                       ("exemplar_img", "exemplar", e)]
    ∧ size im ≠ (sample_size self, sample_size self)
    ∧ _save_triplet self t m e idx w
        = (Err (size_error who what (sample_size self, sample_size self) (size im)), w).
Proof.
  intros Hbad. unfold _save_triplet.
  destruct (decide (size t = (sample_size self, sample_size self))) as [Ht|Ht].
  2:{ exists "test_img", "face", t. rewrite bool_decide_eq_true_2 by done.
      repeat split; [left | done]. }
  rewrite (bool_decide_eq_false_2 (size t ≠ _)) by (intros ?; contradiction).
  destruct (decide (size m = (sample_size self, sample_size self))) as [Hm|Hm].
  2:{ exists "mask_img", "mask", m. rewrite bool_decide_eq_true_2 by done.
      repeat split; [right; left | done]. }
  rewrite (bool_decide_eq_false_2 (size m ≠ _)) by (intros ?; contradiction).
  destruct (decide (size e = (sample_size self, sample_size self))) as [He|He].
  2:{ exists "exemplar_img", "exemplar", e. rewrite bool_decide_eq_true_2 by done.
      repeat split; [do 2 right; left | done]. }
  destruct Hbad. unfold sizes_ok. repeat constructor; done.
Qed.

Lemma save_triplet_ok self t m e w :
  staging_ok self (fs w) → sizes_ok self t m e →
  _save_triplet self t m e 0 w
    = (Ok tt, {| fs := staged_fs self t m e (fs w);
                 trace := trace w ++ staged_writes self t m e |}).
Proof.
  intros [Hdirs Hfree] Hsz. unfold _save_triplet.
  unfold sizes_ok in Hsz. rewrite !Forall_cons in Hsz.
  destruct Hsz as (Ht & Hm & He & _).
  unfold dirs_exist, io_dirs in Hdirs. rewrite !Forall_cons in Hdirs.
  destruct Hdirs as (Dm & Dt & De & Do & _).
  unfold slots_free in Hfree. rewrite !Forall_cons in Hfree.
  destruct Hfree as (Ft & Fm & Fe & _).
  rewrite !bool_decide_eq_false_2 by (intros ?; contradiction).
  unfold Paths.child in *.
  erewrite bind_ok by (apply save_ok; eassumption).
  erewrite bind_ok.
  2:{ apply save_ok; cbn [log set_fs fs].
      - by apply stat_insert_file_dir.
      - by rewrite stat_insert_file_dir. }
  rewrite save_ok; cbn [log set_fs fs trace].
  - unfold staged_fs, staged_writes, Paths.child, log, set_fs.
    cbn [fs trace]. by rewrite <- !app_assoc.
  - apply stat_insert_file_dir; [by rewrite stat_insert_file_dir|].
    by apply stat_insert_file_dir.
  - rewrite !stat_insert_file_dir; try done. by rewrite stat_insert_file_dir.
Qed.

End Staging.

Section StageAndRun.

Variable script : list string → path → gmap path node → gmap path node * Z.
Variable convert_data : mode → mode → list Z → list Z.

Lemma stat_cleared_dir_iff ds f f1 p :
  (∀ q, f1 !! q = cleared ds f q) →
  stat f1 p = Some Dir ↔ stat f p = Some Dir.
Proof.
  intros Hf1. destruct p as [|x p]; [done|]. rewrite !stat_cons, Hf1.
  unfold cleared. destruct (f !! (x :: p)) as [[|c]|]; try done.
  by destruct (inside ds (x :: p)).
Qed.

Lemma staging_ok_cleared self f f1 :
  (∀ q, f1 !! q = cleared (io_dirs self) f q) →
  staging_ok self f → staging_ok self f1.
Proof.
  intros Hf1 [Hd Hs]. split.
  - eapply Forall_impl; [exact Hd|]. intros d Hdir.
    by apply (stat_cleared_dir_iff _ _ _ _ Hf1).
  - eapply Forall_impl; [exact Hs|]. intros d Hdir Hnew. apply Hdir.
    by apply (stat_cleared_dir_iff _ _ _ _ Hf1).
Qed.

(** With the directories in place and images of the right size, the
    first two steps of [run] succeed: the staging directories are
    cleared, then the three images are written. *)
Lemma stage_ok self t m e w :
  staging_ok self (fs w) → sizes_ok self t m e →
  ∃ f1 us,
    stage self t m e w
      = (Ok tt, {| fs := staged_fs self t m e f1;
                   trace := trace w ++ (EvUnlink <$> us) ++ staged_writes self t m e |})
    ∧ ∀ p, f1 !! p = cleared (io_dirs self) (fs w) p.
Proof.
  intros Hok Hsz.
  destruct (clear_dirs_spec (io_dirs self) w (proj1 Hok)) as (f1 & us & Hclr & Hf1).
  exists f1, us. split; [|done].
  unfold stage, _clear_io_dirs. erewrite bind_ok by exact Hclr.
  rewrite save_triplet_ok; cbn [fs trace]; try done.
  - by rewrite <- app_assoc.
  - by eapply staging_ok_cleared.
Qed.

(** With the directories in place and an image of the wrong size, the
    first two steps of [run] clear the directories and then raise the
    [ValueError] of the first offending image; nothing is written. *)
Lemma stage_rejects self t m e w :
  dirs_exist self (fs w) → ¬ sizes_ok self t m e →
  ∃ f1 us who what im,
    (who, what, im) ∈ [("test_img", "face", t); ("mask_img", "mask", m);
                       ("exemplar_img", "exemplar", e)]
    ∧ size im ≠ (sample_size self, sample_size self)
    ∧ stage self t m e w
        = (Err (size_error who what (sample_size self, sample_size self) (size im)),
           {| fs := f1; trace := trace w ++ (EvUnlink <$> us) |})
    ∧ ∀ p, f1 !! p = cleared (io_dirs self) (fs w) p.
Proof.
  intros Hd Hsz.
  destruct (clear_dirs_spec (io_dirs self) w Hd) as (f1 & us & Hclr & Hf1).
  destruct (save_triplet_rejects self t m e 0
              {| fs := f1; trace := trace w ++ (EvUnlink <$> us) |} Hsz)
    as (who & what & im & Hin & Hne & Hrej).
  exists f1, us, who, what, im. repeat split; try done.
  unfold stage, _clear_io_dirs. erewrite bind_ok by exact Hclr. exact Hrej.
Qed.

(** [run] is its first two steps, then the process, then the harvest. *)
Lemma run_after_stage self t m e n w :
  run script convert_data self t m e n w =
    match stage self t m e w with
    | (Ok _, w1) =>
        let '(f', rc) := script (script_cmd self n) (repo_root self) (fs w1) in
        let w2 := log (EvSpawn (script_cmd self n) (repo_root self) rc) (set_fs f' w1) in
        if bool_decide (rc = 0) then _load_outputs convert_data self 0 n w2
        else (Err (CalledProcessError rc (script_cmd self n)), w2)
    | (Err e', w1) => (Err e', w1)
    end.
Proof.
  unfold run, stage, mbind, M_bind, bind.
  destruct (_clear_io_dirs self w) as [[[]|e1] w1]; [|done].
  destruct (_save_triplet self t m e 0 w1) as [[[]|e2] w2]; [|done].
  unfold _run_script, subprocess_run_check.
  destruct (script (script_cmd self n) (repo_root self) (fs w2)) as [f' rc].
  by destruct (bool_decide (rc = 0)).
Qed.

(** *** Computations that spawn nothing *)

Lemma spawns_app a b : spawns (a ++ b) = spawns a ++ spawns b.
Proof. apply omap_app. Qed.

Lemma quiet_ret {A} (a : A) : quiet (mret a).
Proof. by intros w r w' [= <- <-]. Qed.

Lemma quiet_raise {A} e : quiet (@raise A e).
Proof. by intros w r w' [= <- <-]. Qed.

Lemma quiet_bind {A B} (m : M A) (k : A → M B) :
  quiet m → (∀ a, quiet (k a)) → quiet (m ≫= k).
Proof.
  intros Hm Hk w r w'. unfold mbind, M_bind, bind.
  destruct (m w) as [[a|e0] w1] eqn:Hmw.
  - intros Hkw. rewrite (Hk a _ _ _ Hkw). eapply Hm, Hmw.
  - intros [= <- <-]. eapply Hm, Hmw.
Qed.

Lemma quiet_for_each {A} (xs : list A) (body : A → M unit) :
  (∀ x, quiet (body x)) → quiet (for_each xs body).
Proof.
  intros Hb. induction xs as [|x xs IH].
  - apply quiet_ret.
  - apply quiet_bind; [apply Hb | intros _; apply IH].
Qed.

Lemma quiet_unlink_if_file p : quiet (unlink_if_file p).
Proof.
  apply quiet_bind.
  - by intros w r w' [= <- <-].
  - intros [|]; [|apply quiet_ret]. intros w r w'. unfold unlink.
    destruct (stat (fs w) p) as [[|c]|]; intros [= <- <-]; try done.
    cbn [log set_fs trace]. rewrite spawns_app. apply app_nil_r.
Qed.

Lemma quiet_clear_dir d : quiet (clear_dir d).
Proof.
  apply quiet_bind.
  - intros w r w'. unfold iterdir.
    by destruct (stat (fs w) d) as [[|c]|]; intros [= <- <-].
  - intros files. apply quiet_for_each, quiet_unlink_if_file.
Qed.

Lemma quiet_save im p : quiet (save im p).
Proof.
  intros w r w'. unfold save.
  destruct (stat (fs w) (Paths.parent p)) as [[|c]|]; try by intros [= <- <-].
  destruct (stat (fs w) p) as [[|c]|]; intros [= <- <-]; try done;
    cbn [log set_fs trace]; rewrite spawns_app; apply app_nil_r.
Qed.

Lemma quiet_save_triplet self t m e idx : quiet (_save_triplet self t m e idx).
Proof.
  unfold _save_triplet.
  repeat (case_bool_decide; [apply quiet_raise|]).
  repeat (apply quiet_bind; [apply quiet_save | intros _]). apply quiet_save.
Qed.

Lemma quiet_stage self t m e : quiet (stage self t m e).
Proof.
  apply quiet_bind; [|intros _; apply quiet_save_triplet].
  apply quiet_for_each, quiet_clear_dir.
Qed.

End StageAndRun.

(** ** Harvesting the outputs *)

Section Harvest.

Variable convert_data : mode → mode → list Z → list Z.

Lemma range_length n : length (range n) = Z.to_nat n.
Proof. unfold range. by rewrite length_fmap, length_seq. Qed.

Lemma range_nonpos n : n ≤ 0 → range n = [].
Proof. intros H. unfold range. by replace (Z.to_nat n) with 0%nat by lia. Qed.

Lemma elem_of_range n j : j ∈ range n ↔ 0 ≤ j < n.
Proof.
  unfold range. rewrite list_elem_of_fmap. split.
  - intros (k & -> & Hk). apply elem_of_seq in Hk. lia.
  - intros Hj. exists (Z.to_nat j). split; [lia|]. apply elem_of_seq. lia.
Qed.

Lemma range_lookup n (k : nat) j : range n !! k = Some j → j = Z.of_nat k.
Proof.
  unfold range. rewrite list_lookup_fmap. intros H.
  destruct (seq 0 (Z.to_nat n) !! k) as [i|] eqn:Hi; [|done].
  apply lookup_seq in Hi as [-> _]. simpl in H. by injection H as <-.
Qed.

(** The indices up to [n] are those below [j], then [j], then the
    rest. *)
Lemma range_split n j :
  0 ≤ j < n → ∃ rest, range n = range j ++ j :: rest.
Proof.
  intros Hj. unfold range.
  replace (Z.to_nat n) with (Z.to_nat j + S (Z.to_nat n - S (Z.to_nat j)))%nat by lia.
  rewrite seq_app, fmap_app. cbn [seq fmap list_fmap].
  rewrite Nat.add_0_l, Z2Nat.id by lia. eauto.
Qed.

(** One turn of the loop of [_load_outputs]. *)
Lemma load_loop_cons self idx j js acc w :
  load_loop convert_data self idx (j :: js) acc w =
    match stat (fs w) (output_path self idx j) with
    | None =>
        (Err (FileNotFoundError
                ("Missing EXE-GAN output: " +:+ Paths.str (output_path self idx j))), w)
    | Some Dir => (Err (IsADirectoryError (output_path self idx j)), w)
    | Some (File (Raw _)) => (Err UnidentifiedImageError, w)
    | Some (File (Png im)) =>
        load_loop convert_data self idx js (acc ++ [convert convert_data RGB im]) w
    end.
Proof.
  cbn [load_loop]. unfold mbind, M_bind, bind, path_exists, image_open.
  destruct (stat (fs w) (output_path self idx j)) as [[|[im|b]]|] eqn:Hst.
  - rewrite bool_decide_eq_true_2 by eauto. cbn [negb]. by rewrite Hst.
  - rewrite bool_decide_eq_true_2 by eauto. cbn [negb]. by rewrite Hst.
  - rewrite bool_decide_eq_true_2 by eauto. cbn [negb]. by rewrite Hst.
  - rewrite bool_decide_eq_false_2 by (by intros [? ?]). done.
Qed.

(** The harvest only reads. *)
Lemma load_loop_world self idx js : ∀ acc w r w',
  load_loop convert_data self idx js acc w = (r, w') → w' = w.
Proof.
  induction js as [|j js IH]; intros acc w r w'.
  - by intros [= _ <-].
  - rewrite load_loop_cons.
    destruct (stat (fs w) (output_path self idx j)) as [[|[im|b]]|];
      try by intros [= _ <-].
    apply IH.
Qed.

Lemma load_step self j js acc w im :
  output_is self (fs w) j im →
  load_loop convert_data self 0 (j :: js) acc w
    = load_loop convert_data self 0 js (acc ++ [convert convert_data RGB im]) w.
Proof. intros Him. rewrite load_loop_cons. unfold output_is in Him. by rewrite Him. Qed.

(** When every expected file holds an image, the harvest returns their
    RGB conversions in the order of the indices. *)
Lemma load_loop_ok self js : ∀ ims acc w,
  Forall2 (output_is self (fs w)) js ims →
  load_loop convert_data self 0 js acc w
    = (Ok (acc ++ (convert convert_data RGB <$> ims)), w).
Proof.
  induction js as [|j js IH]; intros ims acc w Hall.
  - apply Forall2_nil_inv_l in Hall as ->. cbn. by rewrite app_nil_r.
  - apply Forall2_cons_inv_l in Hall as (im & ims' & Him & Hall & ->).
    erewrite load_step by exact Him. rewrite (IH _ _ _ Hall).
    by rewrite fmap_cons, <- app_assoc.
Qed.

(** When the files before [j0] hold images and the one of [j0] does not
    exist, the harvest raises [FileNotFoundError] for the path of
    [j0]. *)
Lemma load_loop_missing self js1 : ∀ ims acc w j0 js2,
  Forall2 (output_is self (fs w)) js1 ims →
  stat (fs w) (output_path self 0 j0) = None →
  load_loop convert_data self 0 (js1 ++ j0 :: js2) acc w
    = (Err (FileNotFoundError
              ("Missing EXE-GAN output: " +:+ Paths.str (output_path self 0 j0))), w).
Proof.
  induction js1 as [|j js1 IH]; intros ims acc w j0 js2 Hall Hnone.
  - cbn [app]. rewrite load_loop_cons. by rewrite Hnone.
  - apply Forall2_cons_inv_l in Hall as (im & ims' & Him & Hall & ->).
    rewrite <- app_comm_cons. erewrite load_step by exact Him.
    by eapply IH.
Qed.

(** Whatever else the output directory holds, a missing expected file
    makes the harvest fail: it never returns a partial list. *)
Lemma load_loop_never_partial self js : ∀ acc w j,
  j ∈ js → stat (fs w) (output_path self 0 j) = None →
  ∃ e, load_loop convert_data self 0 js acc w = (Err e, w).
Proof.
  induction js as [|j' js IH]; intros acc w j Hin Hnone.
  - by apply elem_of_nil in Hin.
  - rewrite load_loop_cons.
    destruct (stat (fs w) (output_path self 0 j')) as [[|[im|b]]|] eqn:Hst; eauto.
    apply elem_of_cons in Hin as [->|Hin]; [congruence|]. by eapply IH.
Qed.

End Harvest.

(** ** The specification of [run] *)

Section Claims.

Variable script : list string → path → gmap path node → gmap path node * Z.
Variable convert_data : mode → mode → list Z → list Z.

(** What [run] does once clearing and staging have succeeded and the
    process has exited with status 0 leaving the file system [f']. *)
Lemma run_after_success self t m e n w w1 f' :
  stage self t m e w = (Ok tt, w1) →
  script (script_cmd self n) (repo_root self) (fs w1) = (f', 0) →
  run script convert_data self t m e n w
    = _load_outputs convert_data self 0 n
        (log (EvSpawn (script_cmd self n) (repo_root self) 0) (set_fs f' w1)).
Proof.
  intros Hst Hsc. rewrite run_after_stage, Hst, Hsc.
  by rewrite bool_decide_eq_true_2.
Qed.

(** C1 (as amended). For images of the configured size and [n >= 1] samples: when the
    process exits with 0 and the expected output files of the indices
    [0 .. n-1] hold the images [ims] (in index order), [run] returns
    exactly [n] images, the RGB conversions of [ims] in ascending index
    order; the result is a function of the files the process left. *)
Theorem run_returns_all_samples self t m e n w f' ims :
  staging_ok self (fs w) → sizes_ok self t m e → 1 ≤ n →
  script (script_cmd self n) (repo_root self) (fs (stage self t m e w).2) = (f', 0) →
  Forall2 (output_is self f') (range n) ims →
  ∃ w', run script convert_data self t m e n w
          = (Ok (convert convert_data RGB <$> ims), w')
    ∧ fs w' = f'
    ∧ length (convert convert_data RGB <$> ims) = Z.to_nat n
    ∧ Forall (λ im, im_mode im = RGB) (convert convert_data RGB <$> ims)
    ∧ ∀ (k : nat) im, ims !! k = Some im → output_is self f' (Z.of_nat k) im.
Proof.
  intros Hok Hsz Hn Hsc Hall.
  destruct (stage_ok self t m e w Hok Hsz) as (f1 & us & Hst & _).
  rewrite Hst in Hsc. cbn [snd] in Hsc.
  eexists. split; [|split; [|split; [|split]]].
  - erewrite run_after_success by eassumption.
    unfold _load_outputs. by rewrite (load_loop_ok _ _ _ ims).
  - done.
  - rewrite length_fmap, <- (Forall2_length _ _ _ Hall). apply range_length.
  - apply Forall_fmap, Forall_true. done.
  - intros k im Hk.
    destruct (Forall2_lookup_r _ _ _ _ _ Hall Hk) as (j & Hj & Him).
    by rewrite <- (range_lookup _ _ _ Hj).
Qed.

(** C3. In every call of [run] in which a process exits with a non-zero
    status, [run] raises [CalledProcessError] to its caller, the process
    is the only one the call spawned, and no image list is returned,
    whatever the output directory holds. *)
Theorem nonzero_exit_fails self t m e n w r w' new c d rc :
  run script convert_data self t m e n w = (r, w') →
  spawns (trace w') = spawns (trace w) ++ new →
  (c, d, rc) ∈ new → rc ≠ 0 →
  r = Err (CalledProcessError rc (script_cmd self n))
  ∧ new = [(script_cmd self n, repo_root self, rc)]
  ∧ ∀ imgs, r ≠ Ok imgs.
Proof.
  intros Hrun Hnew Hin Hrc. rewrite run_after_stage in Hrun.
  destruct (stage self t m e w) as [[[]|e1] w1] eqn:Hst.
  - pose proof (quiet_stage self t m e _ _ _ Hst) as Hq.
    destruct (script (script_cmd self n) (repo_root self) (fs w1)) as [f' rc0].
    assert (Hone : new = [(script_cmd self n, repo_root self, rc0)]).
    { assert (Htr : spawns (trace w')
                = spawns (trace w) ++ [(script_cmd self n, repo_root self, rc0)]).
      { case_bool_decide.
        - apply load_loop_world in Hrun as ->. cbn [log set_fs trace].
          by rewrite spawns_app, Hq.
        - injection Hrun as <- <-. cbn [log set_fs trace].
          by rewrite spawns_app, Hq. }
      rewrite Htr in Hnew. by apply app_inv_head in Hnew. }
    subst new. apply list_elem_of_singleton in Hin. injection Hin as -> -> ->.
    rewrite bool_decide_eq_false_2 in Hrun by done.
    injection Hrun as <- <-. done.
  - injection Hrun as <- <-.
    rewrite (quiet_stage self t m e _ _ _ Hst) in Hnew.
    rewrite <- (app_nil_r (spawns (trace w))) in Hnew at 1.
    apply app_inv_head in Hnew as <-. by apply elem_of_nil in Hin.
Qed.

(** C4 (as amended). When the process exits with 0, the expected files
    of the indices below [j0] hold images and the file of [j0] does not
    exist, [run] raises [FileNotFoundError] naming the path of
    [0_{j0}_inpaint.png] in the output directory.  And whatever the
    other files are, [run] fails whenever an expected file is missing:
    it never returns a partial list. *)
Theorem missing_output_fails self t m e n w f' :
  staging_ok self (fs w) → sizes_ok self t m e → 1 ≤ n →
  script (script_cmd self n) (repo_root self) (fs (stage self t m e w).2) = (f', 0) →
  ∀ j0, 0 ≤ j0 < n → stat f' (output_path self 0 j0) = None →
  (∃ err, (run script convert_data self t m e n w).1 = Err err)
  ∧ ∀ ims, Forall2 (output_is self f') (range j0) ims →
      (run script convert_data self t m e n w).1
        = Err (FileNotFoundError
                 ("Missing EXE-GAN output: "
                  +:+ Paths.str (Paths.child (out_dir self)
                                   ("0_" +:+ pretty j0 +:+ "_inpaint.png")))).
Proof.
  intros Hok Hsz Hn Hsc j0 Hj0 Hnone.
  destruct (stage_ok self t m e w Hok Hsz) as (f1 & us & Hst & _).
  rewrite Hst in Hsc. cbn [snd] in Hsc.
  erewrite run_after_success by eassumption. unfold _load_outputs.
  match goal with |- context [load_loop _ _ _ _ _ ?w0] => set (w2 := w0) end.
  change f' with (fs w2) in Hnone |- *. split.
  - destruct (load_loop_never_partial convert_data self (range n) [] w2 j0)
      as [err Herr]; [by apply elem_of_range | exact Hnone |].
    exists err. by rewrite Herr.
  - intros ims Hall. destruct (range_split n j0 Hj0) as [rest ->].
    by erewrite load_loop_missing.
Qed.

(** C10. [run] does not check [sample_times]: with [n <= 0] and images
    of the configured size it clears the staging directories, stages the
    three images, spawns the process with [n] as its [--sample_times]
    argument, and when the process exits with 0 it returns the empty
    list. *)
Theorem nonpositive_sample_times_unchecked self t m e n w :
  staging_ok self (fs w) → sizes_ok self t m e → n ≤ 0 →
  ∃ f1 us f' rc,
    (∀ p, f1 !! p = cleared (io_dirs self) (fs w) p)
    ∧ script (script_cmd self n) (repo_root self) (staged_fs self t m e f1) = (f', rc)
    ∧ fs (run script convert_data self t m e n w).2 = f'
    ∧ trace (run script convert_data self t m e n w).2
        = trace w ++ (EvUnlink <$> us) ++ staged_writes self t m e
            ++ [EvSpawn (script_cmd self n) (repo_root self) rc]
    ∧ script_cmd self n !! 13%nat = Some (pretty n)
    ∧ (rc = 0 → (run script convert_data self t m e n w).1 = Ok [])
    ∧ (rc ≠ 0 → (run script convert_data self t m e n w).1
                  = Err (CalledProcessError rc (script_cmd self n))).
Proof.
  intros Hok Hsz Hn.
  destruct (stage_ok self t m e w Hok Hsz) as (f1 & us & Hst & Hf1).
  destruct (script (script_cmd self n) (repo_root self) (staged_fs self t m e f1))
    as [f' rc] eqn:Hsc.
  exists f1, us, f', rc. rewrite run_after_stage, Hst. cbn [fs]. rewrite Hsc.
  unfold _load_outputs. rewrite (range_nonpos n Hn). cbn [load_loop].
  split; [done|]. split; [done|].
  case_bool_decide as Hrc; cbn [snd fst log set_fs fs trace mret M_ret ret];
    rewrite <- !app_assoc; repeat split; done.
Qed.

Lemma writes_app a b : writes (a ++ b) = writes a ++ writes b.
Proof. apply omap_app. Qed.

Lemma writes_unlinks us : writes (EvUnlink <$> us) = [].
Proof. induction us as [|u us IH]; [done | exact IH]. Qed.

Lemma spawns_unlinks us : spawns (EvUnlink <$> us) = [].
Proof. induction us as [|u us IH]; [done | exact IH]. Qed.

Lemma cleared_shrinks ds f p nd : cleared ds f p = Some nd → f !! p = Some nd.
Proof.
  unfold cleared. destruct (f !! p) as [[|c]|]; try done.
  by destruct (inside ds p).
Qed.

Lemma cleared_outside ds f p : inside ds p = false → cleared ds f p = f !! p.
Proof.
  intros H. unfold cleared. rewrite H. by destruct (f !! p) as [[|c]|].
Qed.

Lemma cleared_changes ds f p :
  f !! p ≠ cleared ds f p →
  inside ds p = true ∧ ∃ c, f !! p = Some (File c) ∧ cleared ds f p = None.
Proof.
  unfold cleared. destruct (f !! p) as [[|c]|]; try done.
  destruct (inside ds p); [eauto | done].
Qed.

Lemma inside_child ds d name : d ∈ ds → inside ds (Paths.child d name) = true.
Proof.
  intros Hd. unfold inside. apply existsb_exists. exists d. split.
  - by apply list_elem_of_In.
  - cbn. by apply bool_decide_eq_true_2.
Qed.

Lemma cleared_no_file ds f d name c :
  d ∈ ds → cleared ds f (Paths.child d name) ≠ Some (File c).
Proof.
  intros Hd. unfold cleared. rewrite (inside_child _ _ _ Hd).
  by destruct (f !! Paths.child d name) as [[|c']|].
Qed.

(** C2 (as amended). When an image has the wrong size (and the staging
    directories exist), [run] raises the [ValueError] after the clearing
    step and before every write: at that moment the service has only
    unlinked regular files directly inside the four staging directories;
    no file has been created or modified, and every path whose content
    differs was such a regular file and is now gone.  The size checks
    themselves touch nothing. *)
Theorem validation_error_follows_only_clearing self t m e n w :
  dirs_exist self (fs w) → ¬ sizes_ok self t m e →
  ∃ msg us w',
    run script convert_data self t m e n w = (Err (ValueError msg), w')
    ∧ trace w' = trace w ++ (EvUnlink <$> us)
    ∧ (∀ p, fs w' !! p = cleared (io_dirs self) (fs w) p)
    ∧ (∀ p nd, fs w' !! p = Some nd → fs w !! p = Some nd)
    ∧ (∀ p, fs w !! p ≠ fs w' !! p →
         inside (io_dirs self) p = true
         ∧ ∃ c, fs w !! p = Some (File c) ∧ fs w' !! p = None)
    ∧ (∀ w0, (_save_triplet self t m e 0 w0).2 = w0).
Proof.
  intros Hd Hsz.
  destruct (stage_rejects self t m e w Hd Hsz)
    as (f1 & us & who & what & im & _ & _ & Hst & Hf1).
  eexists _, us, _. rewrite run_after_stage, Hst. unfold size_error.
  split; [reflexivity|]. cbn [fs trace]. repeat split.
  - exact Hf1.
  - intros p nd. rewrite Hf1. apply cleared_shrinks.
  - rewrite Hf1 in H. by apply cleared_changes in H as [? _].
  - rewrite Hf1 in H |- *. by apply cleared_changes in H as [_ ?].
  - intros w0.
    by destruct (save_triplet_rejects self t m e 0 w0 Hsz) as (?&?&?&_&_&->).
Qed.

(** C5. When an image has the wrong size (and the staging directories
    exist), [run] raises a [ValueError] whose message names the first
    offending parameter ([test_img], [mask_img] or [exemplar_img]), the
    expected size and the size received; the call writes no file and
    spawns no process, and every file present afterwards was there
    before with the same content. *)
Theorem size_mismatch_rejected self t m e n w :
  dirs_exist self (fs w) → ¬ sizes_ok self t m e →
  ∃ who what im w',
    (who, what, im) ∈ [("test_img", "face", t); ("mask_img", "mask", m);
                       ("exemplar_img", "exemplar", e)]
    ∧ size im ≠ (sample_size self, sample_size self)
    ∧ run script convert_data self t m e n w
        = (Err (ValueError
                  (who +:+ " must be "
                   +:+ str_size (sample_size self, sample_size self)
                   +:+ ", got " +:+ str_size (size im) +:+ ". "
                   +:+ "Do " +:+ what
                   +:+ " cropping/resizing on the client before calling EXE-GAN.")),
           w')
    ∧ writes (trace w') = writes (trace w)
    ∧ spawns (trace w') = spawns (trace w)
    ∧ ∀ p nd, fs w' !! p = Some nd → fs w !! p = Some nd.
Proof.
  intros Hd Hsz.
  destruct (stage_rejects self t m e w Hd Hsz)
    as (f1 & us & who & what & im & Hin & Hne & Hst & Hf1).
  exists who, what, im. eexists. rewrite run_after_stage, Hst.
  split; [exact Hin|]. split; [exact Hne|]. split; [reflexivity|].
  cbn [fs trace]. repeat split.
  - by rewrite writes_app, writes_unlinks, app_nil_r.
  - by rewrite spawns_app, spawns_unlinks, app_nil_r.
  - intros p nd. rewrite Hf1. apply cleared_shrinks.
Qed.

(** C6. [run] starts with the clearing step.  In any world in which the
    mask, target, exemplar and output directories exist (in particular
    the world a previous [run] left), the step succeeds, only unlinks,
    and removes exactly the regular files directly inside these four
    directories: none is left in any of them, and directories and every
    entry elsewhere are untouched.  Hence what the four directories
    hold after the staging step of that same call are the three images
    of that call and nothing of an earlier one. *)
Theorem clearing_empties_staging_dirs self w :
  Forall (λ d, stat (fs w) d = Some Dir)
         [mask_dir self; gt_dir self; exemplar_dir self; out_dir self] →
  ∃ us w1,
    _clear_io_dirs self w = (Ok tt, w1)
    ∧ trace w1 = trace w ++ (EvUnlink <$> us)
    ∧ (∀ t m e n,
         run script convert_data self t m e n w
           = (_save_triplet self t m e 0 ;;
              _run_script script self n ;;
              _load_outputs convert_data self 0 n) w1)
    ∧ (∀ d name c,
         d ∈ [mask_dir self; gt_dir self; exemplar_dir self; out_dir self] →
         fs w1 !! Paths.child d name ≠ Some (File c))
    ∧ (∀ p, fs w1 !! p
            = cleared [mask_dir self; gt_dir self; exemplar_dir self; out_dir self]
                (fs w) p)
    ∧ (∀ p, fs w !! p = Some Dir → fs w1 !! p = Some Dir)
    ∧ (∀ p, inside [mask_dir self; gt_dir self; exemplar_dir self; out_dir self] p
            = false →
            fs w1 !! p = fs w !! p)
    ∧ (∀ p nd, fs w1 !! p = Some nd → fs w !! p = Some nd)
    ∧ (∀ t m e d name c,
         slots_free self (fs w) → sizes_ok self t m e →
         d ∈ [mask_dir self; gt_dir self; exemplar_dir self; out_dir self] →
         fs (stage self t m e w).2 !! Paths.child d name = Some (File c) →
         (Paths.child d name, c)
           ∈ [(Paths.child (gt_dir self) "0.png", Png t);
              (Paths.child (mask_dir self) "0.png", Png m);
              (Paths.child (exemplar_dir self) "0.png", Png e)]).
Proof.
  intros Hd.
  destruct (clear_dirs_spec [mask_dir self; gt_dir self; exemplar_dir self; out_dir self]
              w Hd) as (f1 & us & Hclr & Hf1).
  exists us. eexists. split; [exact Hclr|]. cbn [fs trace].
  split; [done|]. split; [|split; [|split; [|split; [|split; [|split]]]]].
  - intros t m e n. unfold run, _clear_io_dirs, io_dirs.
    by erewrite bind_ok by exact Hclr.
  - intros d name c Hin. rewrite Hf1. by apply cleared_no_file.
  - exact Hf1.
  - intros p Hp. rewrite Hf1. by apply cleared_dir.
  - intros p Hp. rewrite Hf1. by apply cleared_outside.
  - intros p nd. rewrite Hf1. apply cleared_shrinks.
  - intros t m e d name c Hfree Hsz Hin.
    destruct (stage_ok self t m e w (conj Hd Hfree) Hsz) as (f2 & us2 & -> & Hf2).
    cbn [snd fs]. unfold staged_fs.
    change (staged_name 0) with "0.png".
    rewrite !lookup_insert. repeat case_decide.
    + intros [= <-]. rewrite <- H. do 2 right. left.
    + intros [= <-]. rewrite <- H0. right. left.
    + intros [= <-]. rewrite <- H1. left.
    + rewrite Hf2. intros Hc. by apply cleared_no_file in Hc.
Qed.

(** C7 (as amended). A call of [run] spawns at most one process, and
    none when an image has the wrong size.  When clearing, validation
    and staging succeed (the staging directories are in place, no
    directory sits at one of the three staged [0.png] paths and the
    three images have the configured size), the call reaches the launch
    and spawns exactly one.  A process that is spawned is waited for
    (the disk the call leaves is the one the process left), has the
    repository root as working directory, and an argument vector that
    names the encoder checkpoint, the model checkpoint, the mask, target
    and exemplar directories, the sample count and the output
    directory. *)
Theorem run_spawns_once_after_validation self t m e n w r w' new :
  run script convert_data self t m e n w = (r, w') →
  spawns (trace w') = spawns (trace w) ++ new →
  (new = [] ∨ ∃ rc, new = [(script_cmd self n, repo_root self, rc)])
  ∧ (¬ sizes_ok self t m e → new = [])
  ∧ (staging_ok self (fs w) → sizes_ok self t m e →
       ∃ w1 f' rc,
         stage self t m e w = (Ok tt, w1)
         ∧ script (script_cmd self n) (repo_root self) (fs w1) = (f', rc)
         ∧ new = [(script_cmd self n, repo_root self, rc)]
         ∧ fs w' = f')
  ∧ script_cmd self n
      = ["python"; "guided_recovery.py";
         "--psp_checkpoint_path"; Paths.str (psp_ckpt self);
         "--ckpt"; Paths.str (exegan_ckpt self);
         "--masked_dir"; Paths.str (mask_dir self);
         "--gt_dir"; Paths.str (gt_dir self);
         "--exemplar_dir"; Paths.str (exemplar_dir self);
         "--sample_times"; pretty n;
         "--eval_dir"; Paths.str (out_dir self)].
Proof.
  intros Hrun Hnew. rewrite run_after_stage in Hrun.
  destruct (stage self t m e w) as [[[]|e1] w1] eqn:Hst.
  - pose proof (quiet_stage self t m e _ _ _ Hst) as Hq.
    destruct (script (script_cmd self n) (repo_root self) (fs w1)) as [f' rc] eqn:Hsc.
    assert (Hone : new = [(script_cmd self n, repo_root self, rc)] ∧ fs w' = f').
    { assert (Htr : spawns (trace w')
                = spawns (trace w) ++ [(script_cmd self n, repo_root self, rc)]
                ∧ fs w' = f').
      { case_bool_decide.
        - apply load_loop_world in Hrun as ->. cbn [log set_fs trace fs].
          by rewrite spawns_app, Hq.
        - injection Hrun as <- <-. cbn [log set_fs trace fs].
          by rewrite spawns_app, Hq. }
      destruct Htr as [Htr Hfs]. rewrite Htr in Hnew.
      by apply app_inv_head in Hnew. }
    destruct Hone as [-> Hfs]. split; [right; by exists rc|]. split; [|split; [|done]].
    + intros Hbad. exfalso.
      unfold stage, mbind, M_bind, bind in Hst.
      destruct (_clear_io_dirs self w) as [[[]|e0] w0]; [|done].
      destruct (save_triplet_rejects self t m e 0 w0 Hbad) as (?&?&?&_&_&Hrej).
      by rewrite Hrej in Hst.
    + intros _ _. by exists w1, f', rc.
  - injection Hrun as <- <-.
    rewrite (quiet_stage self t m e _ _ _ Hst) in Hnew.
    rewrite <- (app_nil_r (spawns (trace w))) in Hnew at 1.
    apply app_inv_head in Hnew as <-.
    split; [by left|]. split; [done|]. split; [|done].
    intros Hok Hsz.
    destruct (stage_ok self t m e w Hok Hsz) as (f1 & us & Hst' & _). congruence.
Qed.

(** C8. For images of the configured size, the staging step writes each
    image under the name [0.png] into its own directory (target, mask,
    exemplar); reading a staged file back yields the very image that
    was passed, so mode and pixels are preserved.  The images the
    adapter passes are RGB (target, exemplar) and single-channel
    (mask). *)
Theorem staging_persists_images self t m e w :
  laid_out self → staging_ok self (fs w) → sizes_ok self t m e →
  ∃ w1,
    stage self t m e w = (Ok tt, w1)
    ∧ image_open (Paths.child (gt_dir self) "0.png") w1 = (Ok t, w1)
    ∧ image_open (Paths.child (mask_dir self) "0.png") w1 = (Ok m, w1)
    ∧ image_open (Paths.child (exemplar_dir self) "0.png") w1 = (Ok e, w1)
    ∧ writes (trace w1)
        = writes (trace w)
            ++ [(Paths.child (gt_dir self) "0.png", Png t);
                (Paths.child (mask_dir self) "0.png", Png m);
                (Paths.child (exemplar_dir self) "0.png", Png e)]
    ∧ ∀ test_bytes mask_bytes ex_bytes,
        Api.read_images convert_data test_bytes mask_bytes ex_bytes = Ok (t, m, e) →
        im_mode t = RGB ∧ im_mode m = L ∧ im_mode e = RGB.
Proof.
  intros (Hm & Ht & He & _) Hok Hsz.
  destruct (stage_ok self t m e w Hok Hsz) as (f1 & us & Hst & Hf1).
  eexists. split; [exact Hst|].
  unfold image_open, Paths.child. rewrite !stat_cons. cbn [fs trace].
  unfold staged_fs. change (staged_name 0) with "0.png".
  rewrite Hm, Ht, He. unfold Paths.child.
  repeat split.
  - rewrite lookup_insert_ne by done. rewrite lookup_insert_ne by done.
    by rewrite lookup_insert_eq.
  - rewrite lookup_insert_ne by done. by rewrite lookup_insert_eq.
  - by rewrite lookup_insert_eq.
  - rewrite !writes_app, writes_unlinks. unfold staged_writes.
    by rewrite Hm, Ht, He.
  - unfold Api.read_images in H.
    destruct (decode test_bytes); [|done].
    destruct (decode mask_bytes); [|done].
    destruct (decode ex_bytes); [|done]. by injection H as <- _ _.
  - unfold Api.read_images in H.
    destruct (decode test_bytes); [|done].
    destruct (decode mask_bytes); [|done].
    destruct (decode ex_bytes); [|done]. by injection H as _ <- _.
  - unfold Api.read_images in H.
    destruct (decode test_bytes); [|done].
    destruct (decode mask_bytes); [|done].
    destruct (decode ex_bytes); [|done]. by injection H as _ _ <-.
Qed.

End Claims.

(** ** Construction *)

Section Construction.

(** [mkdir(parents=True, exist_ok=True)] on an existing directory does
    nothing. *)
Lemma mkdir_parents_dir p w :
  stat (fs w) p = Some Dir → mkdir_parents p w = (Ok tt, w).
Proof.
  intros Hp. destruct p as [|x d]; cbn [mkdir_parents];
    unfold os_mkdir, is_dir; rewrite Hp; cbv beta iota; by rewrite Hp.
Qed.

Lemma unobstructed_parent f x d : unobstructed f (x :: d) → unobstructed f d.
Proof. intros H. by apply Forall_cons in H as [_ H]. Qed.

Lemma unobstructed_self f p c : unobstructed f p → stat f p ≠ Some (File c).
Proof.
  intros H Hc. destruct p as [|x d]; [done|].
  apply Forall_cons in H as [H _]. by rewrite Hc in H.
Qed.

Lemma extends_by_dirs_refl w : extends_by_dirs w w.
Proof. split; [|done]. exists []. cbn. by rewrite app_nil_r. Qed.

Lemma extends_by_dirs_trans w1 w2 w3 :
  extends_by_dirs w1 w2 → extends_by_dirs w2 w3 → extends_by_dirs w1 w3.
Proof.
  intros ([ps1 H1] & K1 & F1) ([ps2 H2] & K2 & F2). split; [|split].
  - exists (ps1 ++ ps2). by rewrite H2, H1, fmap_app, app_assoc.
  - eauto.
  - eauto.
Qed.

Lemma os_mkdir_extends (x : string) (d : path) w :
  stat (fs w) (x :: d) = None →
  extends_by_dirs w (log (EvMkdir (x :: d)) (set_fs (<[x :: d := Dir]> (fs w)) w)).
Proof.
  intros Hnone. split; [|split]; cbn [log set_fs fs trace].
  - by exists [x :: d].
  - intros q nd Hq. rewrite stat_insert. case_decide; [congruence | done].
  - intros q c. rewrite stat_insert. by case_decide.
Qed.

(** Creating a directory whose path is not obstructed by a regular file
    succeeds and leaves it in place. *)
Lemma mkdir_parents_ok p : ∀ w,
  unobstructed (fs w) p →
  ∃ w', mkdir_parents p w = (Ok tt, w')
        ∧ stat (fs w') p = Some Dir
        ∧ extends_by_dirs w w'.
Proof.
  induction p as [|x d IH]; intros w Hfree.
  - exists w. rewrite mkdir_parents_dir by done.
    eauto using extends_by_dirs_refl.
  - destruct (stat (fs w) (x :: d)) as [[|c]|] eqn:Hp.
    + exists w. rewrite mkdir_parents_dir by done.
      eauto using extends_by_dirs_refl.
    + by destruct (unobstructed_self _ _ c Hfree).
    + cbn [mkdir_parents]. unfold os_mkdir at 1. rewrite Hp.
      cbn [Paths.parent tail].
      destruct (stat (fs w) d) as [[|c]|] eqn:Hd.
      * eexists. split; [reflexivity|]. split.
        -- cbn [log set_fs fs]. rewrite stat_insert. by rewrite decide_True.
        -- by apply os_mkdir_extends.
      * by destruct (unobstructed_self _ _ c (unobstructed_parent _ _ _ Hfree)).
      * destruct (IH w (unobstructed_parent _ _ _ Hfree))
          as (w1 & -> & Hd1 & Hext).
        unfold mkdir_exist_ok, os_mkdir, is_dir. cbn [Paths.parent tail].
        destruct (stat (fs w1) (x :: d)) as [[|c]|] eqn:Hp1.
        -- exists w1. rewrite Hp1. eauto.
        -- destruct Hext as (_ & _ & Hfile). apply Hfile in Hp1. congruence.
        -- rewrite Hd1. eexists. split; [reflexivity|]. split.
           ++ cbn [log set_fs fs]. rewrite stat_insert. by rewrite decide_True.
           ++ eapply extends_by_dirs_trans; [exact Hext|].
              by apply os_mkdir_extends.
Qed.

Lemma unobstructed_extends w w' p :
  extends_by_dirs w w' → unobstructed (fs w) p → unobstructed (fs w') p.
Proof.
  intros (_ & _ & Hfile) H. eapply Forall_impl; [exact H|].
  intros q Hq. cbv beta in Hq.
  destruct (stat (fs w') q) as [[|c]|] eqn:Hc; try done.
  apply Hfile in Hc. by rewrite Hc in Hq.
Qed.

Lemma mkdirs_ok ds : ∀ w,
  Forall (unobstructed (fs w)) ds →
  ∃ w', for_each ds mkdir_parents w = (Ok tt, w')
        ∧ Forall (λ d, stat (fs w') d = Some Dir) ds
        ∧ extends_by_dirs w w'.
Proof.
  induction ds as [|d ds IH]; intros w Hall.
  - exists w. eauto using extends_by_dirs_refl.
  - apply Forall_cons in Hall as [Hd Hds].
    destruct (mkdir_parents_ok d w Hd) as (w1 & Hmk & Hdir & Hext).
    destruct (IH w1) as (w2 & Hrest & Hdirs & Hext2).
    { eapply Forall_impl; [exact Hds|]. intros q. by apply unobstructed_extends. }
    exists w2. split; [|split].
    + rewrite for_each_cons. by erewrite bind_ok by exact Hmk.
    + apply Forall_cons. split; [|done].
      destruct Hext2 as (_ & Hkeep & _). by apply Hkeep.
    + by eapply extends_by_dirs_trans.
Qed.

Lemma mkdirs_noop ds w :
  Forall (λ d, stat (fs w) d = Some Dir) ds →
  for_each ds mkdir_parents w = (Ok tt, w).
Proof.
  induction 1 as [|d ds Hd Hds IH]; [done|].
  rewrite for_each_cons. by erewrite bind_ok by (by apply mkdir_parents_dir).
Qed.

(** C9. Constructing the service when no regular file obstructs the four
    staging paths (they may be absent, wholly or in part, or present):
    construction succeeds, its only actions are [mkdir]s, the four
    directories [images/mask], [images/target], [images/exemplar] and
    [recover_out] under the repository root exist afterwards, and
    nothing that existed is changed.  Constructing the service where the
    four directories exist succeeds and leaves the world as it is. *)
Theorem init_creates_staging_dirs this_file root prel erel size r w :
  resolve_root this_file root = Some r →
  Forall (unobstructed (fs w)) (io_dirs (attributes r prel erel size)) →
  ∃ w' ps,
    init this_file root prel erel size w = (Ok (attributes r prel erel size), w')
    ∧ trace w' = trace w ++ (EvMkdir <$> ps)
    ∧ io_dirs (attributes r prel erel size)
        = [ "mask" :: "images" :: r; "target" :: "images" :: r;
            "exemplar" :: "images" :: r; "recover_out" :: r ]
    ∧ dirs_exist (attributes r prel erel size) (fs w')
    ∧ laid_out (attributes r prel erel size)
    ∧ (∀ q nd, stat (fs w) q = Some nd → stat (fs w') q = Some nd)
    ∧ init this_file root prel erel size w' = (Ok (attributes r prel erel size), w')
    ∧ (∀ w2, dirs_exist (attributes r prel erel size) (fs w2) →
         init this_file root prel erel size w2
           = (Ok (attributes r prel erel size), w2)).
Proof.
  intros Hroot Hfree.
  assert (Hidem : ∀ w2, dirs_exist (attributes r prel erel size) (fs w2) →
            init this_file root prel erel size w2
              = (Ok (attributes r prel erel size), w2)).
  { intros w2 Hd. unfold init. rewrite Hroot.
    erewrite bind_ok by reflexivity.
    by erewrite bind_ok by (by apply mkdirs_noop). }
  destruct (mkdirs_ok _ w Hfree) as (w' & Hmk & Hdirs & ([ps Htr] & Hkeep & _)).
  exists w', ps. repeat split; try done.
  - unfold init. rewrite Hroot. erewrite bind_ok by reflexivity.
    by erewrite bind_ok by exact Hmk.
  - by apply Hidem.
Qed.

End Construction.

(** ** The statements at concrete inputs *)

Section Instances.
Import Demo.

Local Ltac compute_goal := vm_compute; try reflexivity; try discriminate.

Lemma svc_laid_out : laid_out svc.
Proof. by repeat split. Qed.

Lemma ready_staging_ok : staging_ok svc (fs ready).
Proof. split; repeat constructor; compute_goal. Qed.

Lemma used_staging_ok : staging_ok svc (fs used).
Proof. split; repeat constructor; compute_goal. Qed.

Lemma demo_sizes_ok : sizes_ok svc (rgb 1) (grey 2) (rgb 3).
Proof. repeat constructor. Qed.

Lemma wide_sizes_bad : ¬ sizes_ok svc wide (grey 2) (rgb 3).
Proof. intros H. apply Forall_cons in H as [H _]. discriminate H. Qed.

(** Two samples requested, two written: both come back, in order. *)
Lemma run_returns_all_samples_witness :
  ∃ w', run (writes_samples 2 0) spread svc (rgb 1) (grey 2) (rgb 3) 2 used
          = (Ok [rgb 0; rgb 1], w').
Proof.
  destruct (run_returns_all_samples (writes_samples 2 0) spread svc
              (rgb 1) (grey 2) (rgb 3) 2 used
              (writes_samples 2 0 (script_cmd svc 2) (repo_root svc)
                 (fs (stage svc (rgb 1) (grey 2) (rgb 3) used).2)).1
              [rgb 0; rgb 1])
    as (w' & Hrun & _).
  - exact used_staging_ok.
  - exact demo_sizes_ok.
  - lia.
  - reflexivity.
  - change (range 2) with [0; 1]. repeat constructor; compute_goal.
  - exists w'. exact Hrun.
Defined.

(** The claim as stated fails: one sample is requested, the process
    exits with 0 and the expected file exists, but it is not an image,
    and [run] raises instead of returning a list. *)
Lemma existing_output_that_is_no_image :
  (writes_garbage (script_cmd svc 1) (repo_root svc)
     (fs (stage svc (rgb 1) (grey 2) (rgb 3) ready).2)).2 = 0
  ∧ Forall (λ j, is_Some (stat (writes_garbage (script_cmd svc 1) (repo_root svc)
                                  (fs (stage svc (rgb 1) (grey 2) (rgb 3) ready).2)).1
                               (output_path svc 0 j)))
           (range 1)
  ∧ (run writes_garbage spread svc (rgb 1) (grey 2) (rgb 3) 1 ready).1
      = Err UnidentifiedImageError
  ∧ ¬ ∃ imgs, (run writes_garbage spread svc (rgb 1) (grey 2) (rgb 3) 1 ready).1
              = Ok imgs.
Proof.
  split; [compute_goal|]. split.
  { change (range 1) with [0]. repeat constructor. vm_compute. eexists. reflexivity. }
  split; [compute_goal|]. intros [imgs H]. vm_compute in H. discriminate H.
Qed.

(** The process exits with 1 after writing both samples: the call fails
    all the same. *)
Lemma nonzero_exit_fails_witness :
  (run (writes_samples 2 1) spread svc (rgb 1) (grey 2) (rgb 3) 2 used).1
    = Err (CalledProcessError 1 (script_cmd svc 2)).
Proof.
  refine (proj1 (nonzero_exit_fails (writes_samples 2 1) spread svc
                   (rgb 1) (grey 2) (rgb 3) 2 used _ _
                   [(script_cmd svc 2, repo_root svc, 1)]
                   (script_cmd svc 2) (repo_root svc) 1 _ _ _ _)).
  - apply surjective_pairing.
  - compute_goal.
  - left.
  - discriminate.
Defined.

(** Three samples requested, two written: the error names the third. *)
Lemma missing_output_fails_witness :
  (run (writes_samples 2 0) spread svc (rgb 1) (grey 2) (rgb 3) 3 used).1
    = Err (FileNotFoundError
             "Missing EXE-GAN output: /srv/EXE-GAN/recover_out/0_2_inpaint.png").
Proof.
  refine (proj2 (missing_output_fails (writes_samples 2 0) spread svc
                   (rgb 1) (grey 2) (rgb 3) 3 used
                   (writes_samples 2 0 (script_cmd svc 3) (repo_root svc)
                      (fs (stage svc (rgb 1) (grey 2) (rgb 3) used).2)).1
                   _ _ _ _ 2 _ _) [rgb 0; rgb 1] _).
  - exact used_staging_ok.
  - exact demo_sizes_ok.
  - lia.
  - reflexivity.
  - lia.
  - compute_goal.
  - change (range 2) with [0; 1]. repeat constructor; compute_goal.
Defined.

(** The first output is not an image and the second is missing: the
    error raised is not the one naming the missing file. *)
Lemma garbage_output_hides_missing_file :
  (writes_garbage (script_cmd svc 2) (repo_root svc)
     (fs (stage svc (rgb 1) (grey 2) (rgb 3) ready).2)).2 = 0
  ∧ stat (writes_garbage (script_cmd svc 2) (repo_root svc)
            (fs (stage svc (rgb 1) (grey 2) (rgb 3) ready).2)).1
         (output_path svc 0 1) = None
  ∧ (run writes_garbage spread svc (rgb 1) (grey 2) (rgb 3) 2 ready).1
      = Err UnidentifiedImageError
  ∧ (run writes_garbage spread svc (rgb 1) (grey 2) (rgb 3) 2 ready).1
      ≠ Err (FileNotFoundError
               ("Missing EXE-GAN output: " +:+ Paths.str (output_path svc 0 1))).
Proof. repeat split; compute_goal. Qed.

(** [sample_times = -1]: the process is spawned with ["-1"] and the
    result is the empty list. *)
Lemma nonpositive_sample_times_unchecked_witness :
  (run (writes_samples 0 0) spread svc (rgb 1) (grey 2) (rgb 3) (-1) used).1 = Ok []
  ∧ script_cmd svc (-1) !! 13%nat = Some "-1".
Proof.
  destruct (nonpositive_sample_times_unchecked (writes_samples 0 0) spread svc
              (rgb 1) (grey 2) (rgb 3) (-1) used)
    as (f1 & us & f' & rc & _ & Hsc & _ & _ & Harg & Hok & _).
  - exact used_staging_ok.
  - exact demo_sizes_ok.
  - lia.
  - injection Hsc as _ <-. exact (conj (Hok eq_refl) Harg).
Defined.

(** A target of the wrong size, in a world with leftovers: the error is
    raised after the leftovers were unlinked. *)
Lemma validation_error_follows_only_clearing_witness :
  ∃ msg us w',
    run (writes_samples 1 0) spread svc wide (grey 2) (rgb 3) 1 used
      = (Err (ValueError msg), w')
    ∧ trace w' = trace used ++ (EvUnlink <$> us).
Proof.
  destruct (validation_error_follows_only_clearing (writes_samples 1 0) spread svc
              wide (grey 2) (rgb 3) 1 used)
    as (msg & us & w' & Hrun & Htr & _).
  - repeat constructor; compute_goal.
  - exact wide_sizes_bad.
  - exists msg, us, w'. exact (conj Hrun Htr).
Defined.

(** The claim as stated fails: when the [ValueError] is raised, an
    output of the earlier request has already been deleted from the
    output directory. *)
Lemma stale_output_deleted_before_validation_error :
  (run (writes_samples 1 0) spread svc wide (grey 2) (rgb 3) 1 used).1
    = Err (size_error "test_img" "face" (2, 2) (3, 2))
  ∧ fs used !! output_path svc 0 0 = Some (File (Png (rgb 9)))
  ∧ fs (run (writes_samples 1 0) spread svc wide (grey 2) (rgb 3) 1 used).2
      !! output_path svc 0 0 = None
  ∧ unlinks (trace (run (writes_samples 1 0) spread svc wide (grey 2) (rgb 3) 1 used).2)
      ≠ unlinks (trace used).
Proof. repeat split; compute_goal. Qed.

Lemma size_mismatch_rejected_witness :
  (run (writes_samples 1 0) spread svc wide (grey 2) (rgb 3) 1 used).1
    = Err (ValueError
             "test_img must be (2, 2), got (3, 2). Do face cropping/resizing on the client before calling EXE-GAN.").
Proof.
  destruct (size_mismatch_rejected (writes_samples 1 0) spread svc
              wide (grey 2) (rgb 3) 1 used)
    as (who & what & im & w' & Hin & Hne & Hrun & _).
  - repeat constructor; compute_goal.
  - exact wide_sizes_bad.
  - rewrite Hrun. cbn [fst].
    apply elem_of_cons in Hin as [[= -> -> ->]|Hin]; [reflexivity|].
    apply elem_of_cons in Hin as [[= -> -> ->]|Hin]; [destruct Hne; reflexivity|].
    apply elem_of_cons in Hin as [[= -> -> ->]|Hin]; [destruct Hne; reflexivity|].
    apply elem_of_nil in Hin. destruct Hin.
Defined.

(** The clearing step of a second call, in the world the first call
    left: it succeeds, and the staged images of the first call in the
    mask, target and exemplar directories and its last output are
    gone. *)
Lemma clearing_empties_staging_dirs_witness :
  ∃ w1,
    _clear_io_dirs svc
      (run (writes_samples 3 0) spread svc (rgb 1) (grey 2) (rgb 3) 3 ready).2
      = (Ok tt, w1)
    ∧ fs w1 !! ["0.png"; "mask"; "images"; "EXE-GAN"; "srv"] = None
    ∧ fs w1 !! ["0.png"; "target"; "images"; "EXE-GAN"; "srv"] = None
    ∧ fs w1 !! ["0.png"; "exemplar"; "images"; "EXE-GAN"; "srv"] = None
    ∧ fs w1 !! ["0_2_inpaint.png"; "recover_out"; "EXE-GAN"; "srv"] = None.
Proof.
  destruct (clearing_empties_staging_dirs (writes_samples 3 0) spread svc
              (run (writes_samples 3 0) spread svc (rgb 1) (grey 2) (rgb 3) 3 ready).2)
    as (us & w1 & Hclr & _ & _ & _ & Hf1 & _).
  - repeat constructor; compute_goal.
  - exists w1. split; [exact Hclr|]. rewrite !Hf1.
    repeat split; compute_goal.
Defined.

(** Directories in place and images of the right size: clearing and
    staging succeed and the one process spawned is the script, started
    in the repository root. *)
Lemma run_spawns_once_after_validation_witness :
  ∃ w1 f' rc,
    stage svc (rgb 1) (grey 2) (rgb 3) used = (Ok tt, w1)
    ∧ writes_samples 2 0 (script_cmd svc 2) (repo_root svc) (fs w1) = (f', rc)
    ∧ [(script_cmd svc 2, repo_root svc, 0)] = [(script_cmd svc 2, repo_root svc, rc)]
    ∧ fs (run (writes_samples 2 0) spread svc (rgb 1) (grey 2) (rgb 3) 2 used).2 = f'.
Proof.
  refine (proj1 (proj2 (proj2 (run_spawns_once_after_validation (writes_samples 2 0)
                                 spread svc (rgb 1) (grey 2) (rgb 3) 2 used _
                                 (run (writes_samples 2 0) spread svc
                                    (rgb 1) (grey 2) (rgb 3) 2 used).2
                                 [(script_cmd svc 2, repo_root svc, 0)] _ _)))
            used_staging_ok demo_sizes_ok).
  - apply surjective_pairing.
  - compute_goal.
Defined.

(** The claim as stated fails: a call with a target of the wrong size
    spawns no process at all. *)
Lemma rejected_call_spawns_nothing :
  spawns (trace (run (writes_samples 1 0) spread svc wide (grey 2) (rgb 3) 1 ready).2)
    = spawns (trace ready)
  ∧ ¬ ∃ rc,
      spawns (trace (run (writes_samples 1 0) spread svc wide (grey 2) (rgb 3) 1 ready).2)
        = spawns (trace ready) ++ [(script_cmd svc 1, repo_root svc, rc)].
Proof.
  split; [compute_goal|]. intros [rc H]. vm_compute in H. discriminate H.
Qed.

Lemma staging_persists_images_witness :
  ∃ w1,
    stage svc (rgb 1) (grey 2) (rgb 3) used = (Ok tt, w1)
    ∧ image_open ["0.png"; "mask"; "images"; "EXE-GAN"; "srv"] w1 = (Ok (grey 2), w1).
Proof.
  destruct (staging_persists_images spread svc
              (rgb 1) (grey 2) (rgb 3) used)
    as (w1 & Hst & _ & Hm & _).
  - exact svc_laid_out.
  - exact used_staging_ok.
  - exact demo_sizes_ok.
  - exists w1. exact (conj Hst Hm).
Defined.

(** Construction on an empty disk, with the repository root derived
    from the location of the module. *)
Lemma init_creates_staging_dirs_witness :
  ∃ w',
    init this_file None default_psp_ckpt_rel default_exegan_ckpt_rel 2 fresh
      = (Ok svc, w')
    ∧ dirs_exist svc (fs w')
    ∧ init this_file None default_psp_ckpt_rel default_exegan_ckpt_rel 2 w'
      = (Ok svc, w').
Proof.
  destruct (init_creates_staging_dirs this_file None
              default_psp_ckpt_rel default_exegan_ckpt_rel 2
              ["EXE-GAN"; "srv"] fresh)
    as (w' & ps & Hinit & _ & _ & Hdirs & _ & _ & Hagain & _).
  - reflexivity.
  - repeat constructor.
  - exists w'. exact (conj Hinit (conj Hdirs Hagain)).
Defined.

End Instances.

(** * Further properties of the code *)

Import Laws.

(** ** Output names *)

Section Names.

Lemma string_app_cons a (s1 s2 : string) :
  String a s1 +:+ s2 = String a (s1 +:+ s2).
Proof. reflexivity. Qed.

Lemma string_length_app (s1 s2 : string) :
  String.length (s1 +:+ s2) = (String.length s1 + String.length s2)%nat.
Proof.
  induction s1 as [|a s1 IH]; [done|].
  rewrite string_app_cons. cbn [String.length]. by rewrite IH.
Qed.

Lemma string_app_inj_r (suffix : string) : ∀ s1 s2,
  s1 +:+ suffix = s2 +:+ suffix → s1 = s2.
Proof.
  induction s1 as [|a s1 IH]; intros [|b s2] H.
  - done.
  - apply (f_equal String.length) in H.
    rewrite (string_length_app (String b s2)) in H.
    change ("" +:+ suffix) with suffix in H. cbn [String.length] in H. lia.
  - apply (f_equal String.length) in H.
    rewrite (string_length_app (String a s1)) in H.
    change ("" +:+ suffix) with suffix in H. cbn [String.length] in H. lia.
  - rewrite !string_app_cons in H. injection H as -> H. f_equal. by apply IH.
Qed.

(** X1. Two samples of a request never share an output file: the path of
    [{index}_{j}_inpaint.png] determines [j]. *)
Theorem output_path_inj self index j j' :
  output_path self index j = output_path self index j' → j = j'.
Proof.
  unfold output_path, Paths.child, output_name. intros [= H].
  apply (inj (String.app _)) in H. apply (inj (String.app _)) in H.
  apply string_app_inj_r in H. by apply (inj pretty) in H.
Qed.

End Names.

(** ** What a call of [run] that returns has done *)

Section Returned.

Variable script : list string → path → gmap path node → gmap path node * Z.
Variable convert_data : mode → mode → list Z → list Z.

(** X2. The harvest reads only: it leaves the world as it finds it, whether
    it returns or raises. *)
Theorem load_outputs_reads_only self index n w :
  (_load_outputs convert_data self index n w).2 = w.
Proof.
  destruct (_load_outputs convert_data self index n w) as [r w'] eqn:H.
  by apply load_loop_world in H.
Qed.

(** What the harvest returns when it returns. *)
Lemma load_loop_ok_inv self js : ∀ acc w imgs w',
  load_loop convert_data self 0 js acc w = (Ok imgs, w') →
  ∃ ims, imgs = acc ++ (convert convert_data RGB <$> ims)
         ∧ Forall2 (output_is self (fs w)) js ims.
Proof.
  induction js as [|j js IH]; intros acc w imgs w' H.
  - injection H as <- _. exists []. by rewrite app_nil_r.
  - rewrite load_loop_cons in H.
    destruct (stat (fs w) (output_path self 0 j)) as [[|[im|b]]|] eqn:Hst;
      try done.
    apply IH in H as (ims & -> & Hall). exists (im :: ims). split.
    + by rewrite <- app_assoc.
    + by constructor.
Qed.

#[local] Instance sizes_ok_dec self t m e : Decision (sizes_ok self t m e).
Proof. unfold sizes_ok. apply _. Defined.

(** X3. When [run] returns a list, the three images had the configured
    size, the call spawned exactly one process, which exited with 0, and
    the list holds exactly [n] RGB images (none when [n <= 0]), the
    [j]-th being the conversion of the image in [0_{j}_inpaint.png] as
    it is on disk after the call. *)
Theorem run_returned self t m e n w imgs w' :
  run script convert_data self t m e n w = (Ok imgs, w') →
  sizes_ok self t m e
  ∧ spawns (trace w') = spawns (trace w) ++ [(script_cmd self n, repo_root self, 0)]
  ∧ length imgs = Z.to_nat n
  ∧ Forall (λ im, im_mode im = RGB) imgs
  ∧ ∃ ims, imgs = convert convert_data RGB <$> ims
           ∧ Forall2 (output_is self (fs w')) (range n) ims.
Proof.
  intros Hrun. rewrite run_after_stage in Hrun.
  destruct (stage self t m e w) as [[[]|e1] w1] eqn:Hst; [|done].
  pose proof (quiet_stage self t m e _ _ _ Hst) as Hq.
  assert (Hsz : sizes_ok self t m e).
  { destruct (decide (sizes_ok self t m e)) as [|Hbad]; [done|].
    unfold stage, mbind, M_bind, bind in Hst.
    destruct (_clear_io_dirs self w) as [[[]|e0] w0]; [|done].
    destruct (save_triplet_rejects self t m e 0 w0 Hbad) as (?&?&?&_&_&Hrej).
    by rewrite Hrej in Hst. }
  destruct (script (script_cmd self n) (repo_root self) (fs w1)) as [f' rc].
  case_bool_decide as Hrc; [subst rc|done].
  pose proof (load_loop_world _ _ _ _ _ _ _ _ Hrun) as ->.
  apply load_loop_ok_inv in Hrun as (ims & -> & Hall).
  cbn [log set_fs fs trace app] in *.
  split; [done|]. split; [by rewrite spawns_app, Hq|]. split; [|split].
  - rewrite length_fmap, <- (Forall2_length _ _ _ Hall). apply range_length.
  - apply Forall_fmap, Forall_true. done.
  - by exists ims.
Qed.

End Returned.

(** ** Clearing and staging on any disk *)

Section AnyDisk.

Variable script : list string → path → gmap path node → gmap path node * Z.
Variable convert_data : mode → mode → list Z → list Z.

Lemma for_each_app {A} (xs ys : list A) (body : A → M unit) w :
  for_each (xs ++ ys) body w = (for_each xs body ≫= λ _, for_each ys body) w.
Proof.
  revert w. induction xs as [|x xs IH]; intros w.
  - done.
  - rewrite <- app_comm_cons. cbn [for_each]. unfold mbind, M_bind, bind.
    destruct (body x w) as [[[]|e] w1]; [|done].
    rewrite IH. by unfold mbind, M_bind, bind.
Qed.

(** X4. When the first of the four staging directories (in the order
    mask, target, exemplar, output) that is not a directory is [d],
    [run] fails at [d] with the error of listing it:
    [FileNotFoundError] when [d] does not exist in an existing parent,
    [NotADirectoryError] when [d] is a regular file (not one that the
    clearing of the directories before it removes).  Up to then the
    call has only unlinked, and the files gone are exactly the regular
    files directly inside the staging directories before [d]; nothing
    is written and no process is spawned. *)
Theorem run_without_staging_dir self t m e n w before d after :
  [mask_dir self; gt_dir self; exemplar_dir self; out_dir self]
    = before ++ d :: after →
  Forall (λ d', stat (fs w) d' = Some Dir) before →
  stat (fs w) d ≠ Some Dir →
  ∃ err us w',
    run script convert_data self t m e n w = (Err err, w')
    ∧ trace w' = trace w ++ (EvUnlink <$> us)
    ∧ (∀ p, fs w' !! p = cleared before (fs w) p)
    ∧ (stat (fs w) d = None → stat (fs w) (Paths.parent d) = Some Dir →
       err = FileNotFoundError (Paths.str d))
    ∧ (∀ c, stat (fs w) d = Some (File c) → inside before d = false →
       err = NotADirectoryError d).
Proof.
  intros Hdirs Hbefore Hd.
  destruct (clear_dirs_spec before w Hbefore) as (f1 & us & Hclr & Hf1).
  destruct d as [|x d']; [done|]. rewrite stat_cons in Hd.
  assert (Hstat : cleared before (fs w) (x :: d') = stat f1 (x :: d')).
  { by rewrite stat_cons, Hf1. }
  assert (Hfail : ∀ err,
            iterdir (x :: d') {| fs := f1; trace := trace w ++ (EvUnlink <$> us) |}
              = (Err err, {| fs := f1; trace := trace w ++ (EvUnlink <$> us) |}) →
            run script convert_data self t m e n w
              = (Err err, {| fs := f1; trace := trace w ++ (EvUnlink <$> us) |})).
  { intros err Hit. unfold run, _clear_io_dirs, io_dirs. rewrite Hdirs.
    erewrite bind_err; [done|]. rewrite for_each_app.
    erewrite bind_ok by exact Hclr. rewrite for_each_cons.
    erewrite bind_err; [done|]. unfold clear_dir. by erewrite bind_err. }
  destruct (stat f1 (x :: d')) as [[|c]|] eqn:Hd1.
  - by apply cleared_shrinks in Hstat.
  - exists (NotADirectoryError (x :: d')), us. eexists. split.
    { apply Hfail. unfold iterdir. cbn [fs]. by rewrite Hd1. }
    cbn [fs trace]. split; [done|]. split; [done|]. split; [|done].
    intros Hnone _. unfold cleared in Hstat.
    rewrite stat_cons in Hnone. by rewrite Hnone in Hstat.
  - exists (FileNotFoundError (Paths.str (x :: d'))), us. eexists. split.
    { apply Hfail. unfold iterdir. cbn [fs]. by rewrite Hd1. }
    cbn [fs trace]. split; [done|]. split; [done|]. split; [done|].
    intros c Hfile Hout. rewrite stat_cons in Hfile.
    rewrite cleared_outside in Hstat by done. congruence.
Qed.

(** A loop of [unlink_if_file] over entries none of which is a regular
    file does nothing. *)
Lemma unlink_nothing (l : list path) w :
  (∀ p c, p ∈ l → stat (fs w) p ≠ Some (File c)) →
  for_each l unlink_if_file w = (Ok tt, w).
Proof.
  induction l as [|x l IH]; intros Hl; [done|].
  rewrite for_each_cons.
  erewrite bind_ok by (apply unlink_if_file_skip; intros c; apply Hl; by left).
  apply IH. intros p c Hp. apply Hl. by right.
Qed.

Lemma clear_dirs_nothing (ds : list path) w :
  Forall (λ d, stat (fs w) d = Some Dir) ds →
  (∀ d name c, d ∈ ds → fs w !! Paths.child d name ≠ Some (File c)) →
  for_each ds clear_dir w = (Ok tt, w).
Proof.
  induction ds as [|d ds IH]; intros Hds Hnone; [done|].
  apply Forall_cons in Hds as [Hd Hds].
  rewrite for_each_cons. erewrite bind_ok.
  - apply IH; [done|]. intros d' name c Hin. apply Hnone. by right.
  - unfold clear_dir. erewrite bind_ok by (unfold iterdir; by rewrite Hd).
    apply unlink_nothing. intros p c Hp.
    apply elem_of_entries in Hp as [Hc _].
    destruct p as [|name d']; [done|]. cbn in Hc.
    apply bool_decide_eq_true_1 in Hc as ->. rewrite stat_cons.
    apply (Hnone d name c). by left.
Qed.

(** X5. Clearing twice is clearing once: on the disk a clearing step left,
    a second clearing step succeeds and does nothing at all. *)
Theorem clearing_is_idempotent self w :
  dirs_exist self (fs w) →
  ∃ w1, _clear_io_dirs self w = (Ok tt, w1)
        ∧ _clear_io_dirs self w1 = (Ok tt, w1).
Proof.
  intros Hd.
  destruct (clear_dirs_spec (io_dirs self) w Hd) as (f1 & us & Hclr & Hf1).
  eexists. split; [exact Hclr|].
  apply clear_dirs_nothing; cbn [fs].
  - eapply Forall_impl; [exact Hd|]. intros d Hdir.
    by apply (stat_cleared_dir_iff _ _ _ _ Hf1).
  - intros d name c Hin. rewrite Hf1. by apply cleared_no_file.
Qed.

(** *** Directories are never removed *)

Lemma keeps_dirs_ret {A} (a : A) : keeps_dirs (mret a).
Proof. by intros w q. Qed.

Lemma keeps_dirs_raise {A} e : keeps_dirs (@raise A e).
Proof. by intros w q. Qed.

Lemma keeps_dirs_bind {A B} (m : M A) (k : A → M B) :
  keeps_dirs m → (∀ a, keeps_dirs (k a)) → keeps_dirs (m ≫= k).
Proof.
  intros Hm Hk w q Hq. unfold mbind, M_bind, bind.
  specialize (Hm w q Hq). destruct (m w) as [[a|e0] w1]; [|done].
  by apply Hk.
Qed.

Lemma keeps_dirs_for_each {A} (xs : list A) (body : A → M unit) :
  (∀ x, keeps_dirs (body x)) → keeps_dirs (for_each xs body).
Proof.
  intros Hb. induction xs as [|x xs IH]; [apply keeps_dirs_ret|].
  apply keeps_dirs_bind; [apply Hb | intros _; apply IH].
Qed.

Lemma keeps_dirs_unlink_if_file p : keeps_dirs (unlink_if_file p).
Proof.
  apply keeps_dirs_bind; [by intros w q|].
  intros [|]; [|apply keeps_dirs_ret]. intros w q Hq. unfold unlink.
  destruct (stat (fs w) p) as [[|c]|] eqn:Hp; try done.
  cbn [snd log set_fs fs]. destruct q as [|x q]; [done|].
  rewrite stat_cons in *. rewrite lookup_delete_ne; [done|].
  intros ->. rewrite stat_cons in Hp. congruence.
Qed.

Lemma keeps_dirs_clear_dir d : keeps_dirs (clear_dir d).
Proof.
  apply keeps_dirs_bind.
  - intros w q Hq. unfold iterdir. by destruct (stat (fs w) d) as [[|c]|].
  - intros files. apply keeps_dirs_for_each, keeps_dirs_unlink_if_file.
Qed.

Lemma keeps_dirs_save im p : keeps_dirs (save im p).
Proof.
  intros w q Hq. unfold save.
  destruct (stat (fs w) (Paths.parent p)) as [[|c]|]; try done.
  destruct p as [|x d]; [done|].
  destruct (stat (fs w) (x :: d)) as [[|c]|] eqn:Hp; try done;
    cbn [snd log set_fs fs]; rewrite stat_insert; case_decide; congruence.
Qed.

Lemma keeps_dirs_save_triplet self t m e idx :
  keeps_dirs (_save_triplet self t m e idx).
Proof.
  unfold _save_triplet.
  repeat (case_bool_decide; [apply keeps_dirs_raise|]).
  repeat (apply keeps_dirs_bind; [apply keeps_dirs_save | intros _]).
  apply keeps_dirs_save.
Qed.

(** X6. Whatever the disk, the images and the outcome, the clearing and
    staging steps of [run] remove no directory: every directory that
    exists before exists after (so the staging directories, once
    created, stay unless the external process removes them). *)
Theorem stage_keeps_directories self t m e w q :
  stat (fs w) q = Some Dir →
  stat (fs (stage self t m e w).2) q = Some Dir.
Proof.
  revert w q. change (keeps_dirs (stage self t m e)).
  apply keeps_dirs_bind; [|intros _; apply keeps_dirs_save_triplet].
  apply keeps_dirs_for_each, keeps_dirs_clear_dir.
Qed.

(** X7. The disk [run] leaves is the one the process left, or, when no
    process was spawned, the one clearing and staging left. *)
Theorem run_final_disk self t m e n w :
  fs (run script convert_data self t m e n w).2 =
    match stage self t m e w with
    | (Ok _, w1) => (script (script_cmd self n) (repo_root self) (fs w1)).1
    | (Err _, w1) => fs w1
    end.
Proof.
  rewrite run_after_stage.
  destruct (stage self t m e w) as [[[]|e1] w1]; [|done].
  destruct (script (script_cmd self n) (repo_root self) (fs w1)) as [f' rc].
  case_bool_decide; [|done].
  destruct (_load_outputs _ _ _ _ _) as [r w'] eqn:Hl.
  by apply load_loop_world in Hl as ->.
Qed.

End AnyDisk.

(** ** Construction on any disk *)

Section AnyConstruction.

Lemma os_mkdir_any p w : extends_by_dirs w (os_mkdir p w).2.
Proof.
  unfold os_mkdir. destruct (stat (fs w) p) as [nd|] eqn:Hp.
  - apply extends_by_dirs_refl.
  - destruct (stat (fs w) (Paths.parent p)) as [[|c]|];
      try apply extends_by_dirs_refl.
    destruct p as [|x d]; [done|]. by apply os_mkdir_extends.
Qed.

Lemma mkdir_exist_ok_any p w : extends_by_dirs w (mkdir_exist_ok p w).2.
Proof.
  unfold mkdir_exist_ok. pose proof (os_mkdir_any p w) as H.
  destruct (os_mkdir p w) as [[[]|e] w1]; [done|].
  unfold is_dir. destruct e; try done;
    by destruct (stat (fs w1) p) as [[|c]|].
Qed.

Lemma mkdir_parents_any p : ∀ w, extends_by_dirs w (mkdir_parents p w).2.
Proof.
  induction p as [|x d IH]; intros w; cbn [mkdir_parents].
  - pose proof (os_mkdir_any [] w) as H0.
    destruct (os_mkdir [] w) as [[[]|e] w1]; [done|].
    unfold is_dir. destruct e; try done;
      by destruct (stat (fs w1) []) as [[|c]|].
  - pose proof (os_mkdir_any (x :: d) w) as H1.
    destruct (os_mkdir (x :: d) w) as [[[]|e] w1]; [done|].
    unfold is_dir.
    destruct e; try done;
      try by destruct (stat (fs w1) (x :: d)) as [[|c]|].
    specialize (IH w1).
    destruct (mkdir_parents d w1) as [[[]|e] w2].
    + eapply extends_by_dirs_trans; [exact H1|].
      eapply extends_by_dirs_trans; [exact IH|]. apply mkdir_exist_ok_any.
    + by eapply extends_by_dirs_trans.
Qed.

Lemma mkdirs_any ds : ∀ w, extends_by_dirs w (for_each ds mkdir_parents w).2.
Proof.
  induction ds as [|d ds IH]; intros w; [apply extends_by_dirs_refl|].
  rewrite for_each_cons. unfold mbind, M_bind, bind.
  pose proof (mkdir_parents_any d w) as H.
  destruct (mkdir_parents d w) as [[[]|e] w1]; [|done].
  eapply extends_by_dirs_trans; [exact H | apply IH].
Qed.

(** X8. Whatever the disk and whether it succeeds or raises, constructing
    the service only makes directories: every entry that existed is
    still there unchanged, no regular file appears, and the actions are
    all [mkdir]s. *)
Theorem init_only_makes_directories this_file root prel erel size w :
  extends_by_dirs w (init this_file root prel erel size w).2.
Proof.
  unfold init, mbind, M_bind, bind.
  destruct (resolve_root this_file root) as [r|]; [|apply extends_by_dirs_refl].
  cbn [mret M_ret ret].
  pose proof (mkdirs_any (io_dirs (attributes r prel erel size)) w) as H.
  by destruct (for_each _ mkdir_parents w) as [[[]|e] w1].
Qed.

(** X9. When [images] under the repository root is a regular file,
    construction raises [NotADirectoryError] for [images/mask], the
    first directory it tries to make, and leaves the disk as it
    is. *)
Theorem init_blocked_by_file this_file root prel erel size r w c :
  resolve_root this_file root = Some r →
  stat (fs w) ("images" :: r) = Some (File c) →
  stat (fs w) ("mask" :: "images" :: r) = None →
  init this_file root prel erel size w
    = (Err (NotADirectoryError ("mask" :: "images" :: r)), w).
Proof.
  intros Hroot Himg Hmask. unfold init. rewrite Hroot.
  erewrite bind_ok by reflexivity. erewrite bind_err; [done|].
  unfold io_dirs. rewrite for_each_cons.
  erewrite bind_err; [done|].
  cbn [attributes mask_dir]. unfold Paths.child.
  cbn [mkdir_parents]. unfold os_mkdir, is_dir. cbn [Paths.parent tail].
  rewrite Hmask, Himg. cbv beta iota. by rewrite Hmask.
Qed.

End AnyConstruction.

(** ** The adapter *)

Section Adapter.

Variable script : list string → path → gmap path node → gmap path node * Z.
Variable convert_data : mode → mode → list Z → list Z.

Local Abbreviation guided_recovery := (Api.guided_recovery script convert_data).
Local Abbreviation to_rgb := (convert convert_data RGB).
Local Abbreviation to_grey := (convert convert_data L).


Lemma sizes_ok_convert service t0 m0 e0 :
  sizes_ok service t0 m0 e0 →
  sizes_ok service (to_rgb t0) (to_grey m0) (to_rgb e0).
Proof. unfold sizes_ok. rewrite !Forall_cons. naive_solver. Qed.

(** X12. With three decodable uploads of the configured size, at least one
    sample requested, exit status 0 and the expected files holding the
    images [first :: others], the response body is the PNG encoding
    of the RGB conversion of the first sample; the other samples are
    computed and dropped. *)
Theorem adapter_returns_first_sample service t0 m0 e0 n w f' first others :
  staging_ok service (fs w) → sizes_ok service t0 m0 e0 → 1 ≤ n →
  script (script_cmd service n) (repo_root service)
    (fs (stage service (to_rgb t0) (to_grey m0) (to_rgb e0) w).2) = (f', 0) →
  Forall2 (output_is service f') (range n) (first :: others) →
  ∃ w', guided_recovery service (Png t0) (Png m0) (Png e0) n w
          = (Ok (Png (to_rgb first)), w')
        ∧ fs w' = f'.
Proof.
  intros Hok Hsz Hn Hsc Hall.
  destruct (stage_ok service _ _ _ w Hok (sizes_ok_convert _ _ _ _ Hsz))
    as (f1 & us & Hst & _).
  rewrite Hst in Hsc. cbn [snd] in Hsc.
  unfold Api.guided_recovery, Api.read_images. cbn [decode].
  eexists. erewrite bind_ok.
  2:{ erewrite run_after_success by eassumption.
      unfold _load_outputs. by apply load_loop_ok. }
  done.
Qed.

(** X13. The adapter does not check [sample_times] either: with [n <= 0],
    uploads of the configured size and exit status 0, the model process
    is run and the request then fails with [IndexError] on the empty
    result. *)
Theorem adapter_nonpositive_sample_times service t0 m0 e0 n w f' :
  staging_ok service (fs w) → sizes_ok service t0 m0 e0 → n ≤ 0 →
  script (script_cmd service n) (repo_root service)
    (fs (stage service (to_rgb t0) (to_grey m0) (to_rgb e0) w).2) = (f', 0) →
  ∃ w', guided_recovery service (Png t0) (Png m0) (Png e0) n w
          = (Err IndexError, w')
        ∧ fs w' = f'
        ∧ spawns (trace w')
            = spawns (trace w) ++ [(script_cmd service n, repo_root service, 0)].
Proof.
  intros Hok Hsz Hn Hsc.
  destruct (stage_ok service _ _ _ w Hok (sizes_ok_convert _ _ _ _ Hsz))
    as (f1 & us & Hst & _).
  pose proof (quiet_stage _ _ _ _ _ _ _ Hst) as Hq. cbn [trace] in Hq.
  rewrite Hst in Hsc. cbn [snd] in Hsc.
  unfold Api.guided_recovery, Api.read_images. cbn [decode].
  eexists. erewrite bind_ok.
  2:{ erewrite run_after_success by eassumption.
      unfold _load_outputs. rewrite (range_nonpos n Hn). reflexivity. }
  split; [reflexivity|]. split; [done|].
  cbn [log set_fs trace]. by rewrite spawns_app, Hq.
Qed.

(** The size checks of [_save_triplet], in their order: the error is
    that of the first image, in the order target, mask, exemplar, whose
    size is wrong, and the world is untouched. *)
Lemma save_triplet_first_bad self t m e idx w :
  let expected := (sample_size self, sample_size self) in
  (size t ≠ expected →
   _save_triplet self t m e idx w
     = (Err (size_error "test_img" "face" expected (size t)), w))
  ∧ (size t = expected → size m ≠ expected →
     _save_triplet self t m e idx w
       = (Err (size_error "mask_img" "mask" expected (size m)), w))
  ∧ (size t = expected → size m = expected → size e ≠ expected →
     _save_triplet self t m e idx w
       = (Err (size_error "exemplar_img" "exemplar" expected (size e)), w)).
Proof.
  intros expected. unfold _save_triplet. fold expected. repeat split.
  - intros Ht. by rewrite bool_decide_eq_true_2.
  - intros Ht Hm.
    rewrite (bool_decide_eq_false_2 (size t ≠ _)) by (intros ?; contradiction).
    by rewrite bool_decide_eq_true_2.
  - intros Ht Hm He.
    rewrite (bool_decide_eq_false_2 (size t ≠ _)) by (intros ?; contradiction).
    rewrite (bool_decide_eq_false_2 (size m ≠ _)) by (intros ?; contradiction).
    by rewrite bool_decide_eq_true_2.
Qed.

(** X14. An upload of the wrong size (the staging directories being in
    place) makes the request fail with the [ValueError] of the first
    offending parameter, in the order test, mask, exemplar: the uploads
    before it have the right size, and the size reported is that of the
    upload itself, since the conversions keep it.  Nothing is written
    and no process is spawned. *)
Theorem adapter_rejects_wrong_size service t0 m0 e0 n w before who what up after :
  dirs_exist service (fs w) →
  [("test_img", "face", t0); ("mask_img", "mask", m0); ("exemplar_img", "exemplar", e0)]
    = before ++ (who, what, up) :: after →
  Forall (λ x, size x.2 = (sample_size service, sample_size service)) before →
  size up ≠ (sample_size service, sample_size service) →
  ∃ w',
    guided_recovery service (Png t0) (Png m0) (Png e0) n w
      = (Err (size_error who what (sample_size service, sample_size service)
                (size up)), w')
    ∧ writes (trace w') = writes (trace w)
    ∧ spawns (trace w') = spawns (trace w).
Proof.
  intros Hd Hsplit Hbefore Hup.
  destruct (clear_dirs_spec (io_dirs service) w Hd) as (f1 & us & Hclr & _).
  destruct (save_triplet_first_bad service (to_rgb t0) (to_grey m0) (to_rgb e0) 0
              {| fs := f1; trace := trace w ++ (EvUnlink <$> us) |})
    as (Htest & Hmask & Hex).
  assert (Hrej : _save_triplet service (to_rgb t0) (to_grey m0) (to_rgb e0) 0
                   {| fs := f1; trace := trace w ++ (EvUnlink <$> us) |}
                 = (Err (size_error who what (sample_size service, sample_size service)
                           (size up)),
                    {| fs := f1; trace := trace w ++ (EvUnlink <$> us) |})).
  { destruct before as [|x1 [|x2 [|x3 rest]]].
    - injection Hsplit as <- <- <- _. by apply Htest.
    - injection Hsplit as <- <- <- <- _.
      apply Forall_cons in Hbefore as [H1 _]. by apply Hmask.
    - injection Hsplit as <- <- <- <- <- _.
      apply Forall_cons in Hbefore as [H1 Hbefore].
      apply Forall_cons in Hbefore as [H2 _]. by apply Hex.
    - injection Hsplit as _ _ _ Hnil. by destruct rest. }
  eexists. split.
  { unfold Api.guided_recovery, Api.read_images. cbn [decode].
    erewrite bind_err; [reflexivity|].
    unfold run, _clear_io_dirs. erewrite bind_ok by exact Hclr.
    by erewrite bind_err by exact Hrej. }
  cbn [trace]. split.
  - by rewrite writes_app, writes_unlinks, app_nil_r.
  - by rewrite spawns_app, spawns_unlinks, app_nil_r.
Qed.

End Adapter.

(** ** No [ValueError] with images of the right size *)

Section NoValueError.

Variable script : list string → path → gmap path node → gmap path node * Z.
Variable convert_data : mode → mode → list Z → list Z.

Lemma nve_ret {A} (a : A) : never_value_error (mret a).
Proof. by intros w e w'. Qed.

Lemma nve_bind {A B} (m : M A) (k : A → M B) (P : A → Prop) :
  never_value_error m →
  (∀ w a w', m w = (Ok a, w') → P a) →
  (∀ a, P a → never_value_error (k a)) →
  never_value_error (m ≫= k).
Proof.
  intros Hm HP Hk w e w'. unfold mbind, M_bind, bind.
  destruct (m w) as [[a|e0] w1] eqn:Hmw.
  - apply Hk. by eapply HP.
  - intros [= <- <-]. by eapply Hm.
Qed.

Lemma nve_seq {A B} (m : M A) (k : A → M B) :
  never_value_error m → (∀ a, never_value_error (k a)) →
  never_value_error (m ≫= k).
Proof. intros Hm Hk. by apply (nve_bind m k (λ _, True)). Qed.

Lemma nve_for_each {A} (xs : list A) (body : A → M unit) :
  (∀ x, never_value_error (body x)) → never_value_error (for_each xs body).
Proof.
  intros Hb. induction xs as [|x xs IH]; [apply nve_ret|].
  apply nve_seq; [apply Hb | intros _; apply IH].
Qed.

Lemma nve_unlink_if_file p : never_value_error (unlink_if_file p).
Proof.
  apply nve_seq; [by intros w e w'|].
  intros [|]; [|apply nve_ret]. intros w e w'. unfold unlink.
  by destruct (stat (fs w) p) as [[|c]|]; intros [= <- _].
Qed.

Lemma nve_clear_io_dirs self : never_value_error (_clear_io_dirs self).
Proof.
  apply nve_for_each. intros d. apply nve_seq.
  - intros w e w'. unfold iterdir.
    by destruct (stat (fs w) d) as [[|c]|]; intros [= <- _].
  - intros files. apply nve_for_each, nve_unlink_if_file.
Qed.

Lemma nve_save im p : never_value_error (save im p).
Proof.
  intros w e w'. unfold save.
  destruct (stat (fs w) (Paths.parent p)) as [[|c]|]; try by intros [= <- _].
  by destruct (stat (fs w) p) as [[|c]|]; intros [= <- _].
Qed.

Lemma nve_save_triplet self t m e idx :
  sizes_ok self t m e → never_value_error (_save_triplet self t m e idx).
Proof.
  intros Hsz. unfold sizes_ok in Hsz. rewrite !Forall_cons in Hsz.
  destruct Hsz as (Ht & Hm & He & _). unfold _save_triplet.
  rewrite !bool_decide_eq_false_2 by (intros ?; contradiction).
  repeat (apply nve_seq; [apply nve_save | intros _]). apply nve_save.
Qed.

Lemma nve_load_loop self idx js : ∀ acc,
  never_value_error (load_loop convert_data self idx js acc).
Proof.
  induction js as [|j js IH]; intros acc w e w'; [done|].
  rewrite load_loop_cons.
  destruct (stat (fs w) (output_path self idx j)) as [[|[im|b]]|];
    try by intros [= <- _].
  apply IH.
Qed.

(** X10. The converse of the size check: with three images of the
    configured size, [run] never raises the error of a size check of
    [_save_triplet] (for any parameter name and any sizes in the
    message), whatever the disk holds and whatever the process does. *)
Theorem run_raises_no_size_error self t m e n w err w' :
  sizes_ok self t m e →
  run script convert_data self t m e n w = (Err err, w') →
  ∀ who what expected got, err ≠ size_error who what expected got.
Proof.
  intros Hsz Hrun who what expected got. revert w err w' Hrun.
  cut (never_value_error (run script convert_data self t m e n)).
  { intros Hnve w err w' Hrun. by eapply Hnve. }
  apply nve_seq; [apply nve_clear_io_dirs | intros _].
  apply nve_seq; [by apply nve_save_triplet | intros _].
  apply nve_seq; [|intros _; apply nve_load_loop].
  intros w err w'. unfold _run_script, subprocess_run_check.
  destruct (script _ _ _) as [f' rc].
  by case_bool_decide; intros [= <- _].
Qed.

End NoValueError.

(** ** The test driver *)

Section Driver.
Import TestRun.

Variable script : list string → path → gmap path node → gmap path node * Z.
Variable convert_data : mode → mode → list Z → list Z.
Variable resize_data : mode → Z * Z → Z * Z → list Z → list Z.

Local Abbreviation main := (TestRun.main script convert_data resize_data).
Local Abbreviation prepared m im :=
  (resize resize_data enforced_size (convert convert_data m im)).

Lemma bindC_ok {A B} (m : C A) (k : A → C B) c a c' :
  m c = (Ok a, c') → (m ≫= k) c = k a c'.
Proof. intros H. unfold mbind, C_bind. by rewrite H. Qed.

Lemma bindC_err {A B} (m : C A) (k : A → C B) c e c' :
  m c = (Err e, c') → (m ≫= k) c = (Err e, c').
Proof. intros H. unfold mbind, C_bind. by rewrite H. Qed.

Lemma lift_run {A} (m : M A) c r w :
  m (disk c) = (r, w) → lift m c = (r, {| disk := w; stdout := stdout c |}).
Proof. intros H. unfold lift. by rewrite H. Qed.

Lemma lift_same {A} (m : M A) c r :
  m (disk c) = (r, disk c) → lift m c = (r, c).
Proof. intros H. rewrite (lift_run _ _ _ _ H). by destruct c. Qed.

(** The three existence checks of [main], as one computation. *)
Lemma examples_checked r c (k : bool → C unit) :
  let examples_dir := Paths.child (Paths.child r "service") "examples" in
  (has_test ← lift (path_exists (Paths.child examples_dir "test.png"));
   has_mask ← (if has_test : bool
               then lift (path_exists (Paths.child examples_dir "mask.png"))
               else mret false);
   has_ex ← (if has_mask : bool
             then lift (path_exists (Paths.child examples_dir "exemplar.png"))
             else mret false);
   k has_ex) c
  = k (bool_decide (is_Some (stat (fs (disk c)) (Paths.child examples_dir "test.png")))
       && bool_decide (is_Some (stat (fs (disk c)) (Paths.child examples_dir "mask.png")))
       && bool_decide (is_Some (stat (fs (disk c)) (Paths.child examples_dir "exemplar.png"))))
      c.
Proof.
  intros examples_dir.
  erewrite bindC_ok by (apply lift_same; reflexivity).
  destruct (bool_decide (is_Some (stat _ (Paths.child examples_dir "test.png")))).
  - erewrite bindC_ok by (apply lift_same; reflexivity).
    destruct (bool_decide (is_Some (stat _ (Paths.child examples_dir "mask.png")))).
    + by erewrite bindC_ok by (apply lift_same; reflexivity).
    + by erewrite bindC_ok by reflexivity.
  - erewrite bindC_ok by reflexivity. by erewrite bindC_ok by reflexivity.
Qed.

(** X15. When one of the three example images does not exist, [main] raises
    [FileNotFoundError] naming the examples directory before it does
    anything else: the service is not constructed, no directory is made,
    nothing is printed. *)
Theorem main_without_examples this_file service_file r c :
  Paths.parents1 this_file = Some r →
  (∃ name, name ∈ ["test.png"; "mask.png"; "exemplar.png"]
           ∧ stat (fs (disk c)) (name :: "examples" :: "service" :: r) = None) →
  main this_file service_file c
    = (Err (FileNotFoundError
              ("Missing example images in "
               +:+ Paths.str ("examples" :: "service" :: r)
               +:+ ". Expected test.png, mask.png, exemplar.png")), c).
Proof.
  intros Hroot (name & Hin & Hnone). unfold TestRun.main. rewrite Hroot.
  erewrite bindC_ok by (apply lift_same; reflexivity).
  rewrite examples_checked. unfold Paths.child.
  assert (bool_decide (is_Some (stat (fs (disk c)) ("test.png" :: "examples" :: "service" :: r)))
          && bool_decide (is_Some (stat (fs (disk c)) ("mask.png" :: "examples" :: "service" :: r)))
          && bool_decide (is_Some (stat (fs (disk c)) ("exemplar.png" :: "examples" :: "service" :: r)))
          = false) as ->.
  { apply elem_of_cons in Hin as [->|Hin].
    { rewrite Hnone. rewrite bool_decide_eq_false_2; [done | by intros [? ?]]. }
    apply elem_of_cons in Hin as [->|Hin].
    { rewrite Hnone, (bool_decide_eq_false_2 (is_Some None)) by (by intros [? ?]).
      by rewrite andb_false_r. }
    apply elem_of_cons in Hin as [->|Hin]; [|by apply elem_of_nil in Hin].
    rewrite Hnone, (bool_decide_eq_false_2 (is_Some None)) by (by intros [? ?]).
    by rewrite andb_false_r. }
  cbn [negb]. by apply lift_same.
Qed.

Lemma nveC_bind {A B} (m : C A) (k : A → C B) (P : A → Prop) :
  never_value_error_C m →
  (∀ c a c', m c = (Ok a, c') → P a) →
  (∀ a, P a → never_value_error_C (k a)) →
  never_value_error_C (m ≫= k).
Proof.
  intros Hm HP Hk c e c'. unfold mbind, C_bind.
  destruct (m c) as [[a|e0] c1] eqn:Hmc.
  - apply Hk. by eapply HP.
  - intros [= <- <-]. by eapply Hm.
Qed.

Lemma nveC_seq {A B} (m : C A) (k : A → C B) :
  never_value_error_C m → (∀ a, never_value_error_C (k a)) →
  never_value_error_C (m ≫= k).
Proof. intros Hm Hk. by apply (nveC_bind m k (λ _, True)). Qed.

Lemma nveC_lift {A} (m : M A) : never_value_error m → never_value_error_C (lift m).
Proof.
  intros Hm c e c'. unfold lift.
  destruct (m (disk c)) as [r w] eqn:Hmw. intros [= -> _]. by eapply Hm.
Qed.

Lemma nveC_print line : never_value_error_C (print line).
Proof. by intros c e c'. Qed.

Lemma nve_image_open p : never_value_error (image_open p).
Proof.
  intros w e w'. unfold image_open.
  destruct (stat (fs w) p) as [[|[im|b]]|]; by intros [= <- _].
Qed.

Lemma nveC_load_example p m :
  never_value_error_C (load_example convert_data resize_data p m).
Proof.
  apply nveC_seq; [apply nveC_lift, nve_image_open|]. by intros im c e c'.
Qed.

Lemma nve_os_mkdir p : never_value_error (os_mkdir p).
Proof.
  intros w e w'. unfold os_mkdir.
  destruct (stat (fs w) p) as [nd|]; [by intros [= <- _]|].
  by destruct (stat (fs w) (Paths.parent p)) as [[|c]|]; intros [= <- _].
Qed.

Lemma nve_mkdir_exist_ok p : never_value_error (mkdir_exist_ok p).
Proof.
  intros w e w'. unfold mkdir_exist_ok.
  pose proof (nve_os_mkdir p w) as Hos.
  destruct (os_mkdir p w) as [[[]|e0] w1]; [done|].
  specialize (Hos e0 w1 eq_refl). unfold is_dir.
  destruct e0; try (by intros [= <- _]); try (by destruct (Hos msg));
    by destruct (stat (fs w1) p) as [[|c]|]; intros [= <- _].
Qed.

Lemma nve_mkdir_parents p : never_value_error (mkdir_parents p).
Proof.
  induction p as [|x d IH]; intros w e w'; cbn [mkdir_parents].
  - pose proof (nve_os_mkdir [] w) as Hos.
    destruct (os_mkdir [] w) as [[[]|e0] w1]; [done|].
    specialize (Hos e0 w1 eq_refl). unfold is_dir.
    destruct e0; try (by intros [= <- _]); try (by destruct (Hos msg));
      by destruct (stat (fs w1) []) as [[|c]|]; intros [= <- _].
  - pose proof (nve_os_mkdir (x :: d) w) as Hos.
    destruct (os_mkdir (x :: d) w) as [[[]|e0] w1]; [done|].
    specialize (Hos e0 w1 eq_refl). unfold is_dir.
    destruct e0; try (by destruct (Hos msg));
      try (by destruct (stat (fs w1) (x :: d)) as [[|c]|]; intros [= <- _]).
    specialize (IH w1). destruct (mkdir_parents d w1) as [[[]|e0] w2].
    + apply nve_mkdir_exist_ok.
    + intros [= <- _]. by eapply IH.
Qed.

Lemma nve_init this_file root prel erel size :
  never_value_error (init this_file root prel erel size).
Proof.
  unfold init. apply nve_seq.
  - destruct (resolve_root this_file root); by intros w e w' [= <- _].
  - intros r. apply nve_seq; [|intros _; apply nve_ret].
    apply nve_for_each, nve_mkdir_parents.
Qed.

(** The service [__init__] returns has the attributes of its root and
    size. *)
Lemma init_ok_inv this_file root prel erel size w self w' :
  init this_file root prel erel size w = (Ok self, w') →
  ∃ r, self = attributes r prel erel size.
Proof.
  unfold init, mbind, M_bind, bind.
  destruct (resolve_root this_file root) as [r|]; [|done]. cbn [mret M_ret ret].
  destruct (for_each _ mkdir_parents w) as [[[]|e] w1]; [|done].
  intros [= <- _]. by exists r.
Qed.

(** X16. Because it resizes the three examples to 256x256, the size the
    service it constructs expects, [main] never fails with the error of
    a size check of [_save_triplet] (for any parameter name and any
    sizes in the message), whatever the disk holds and whatever the
    process does. *)
Theorem main_raises_no_size_error this_file service_file c err c' :
  main this_file service_file c = (Err err, c') →
  ∀ who what expected got, err ≠ size_error who what expected got.
Proof.
  intros Hmain who what expected got. revert Hmain.
  cut (main this_file service_file c = (Err err, c') → ∀ msg, err ≠ ValueError msg).
  { intros Hcut Hmain. by apply Hcut. }
  unfold TestRun.main.
  destruct (Paths.parents1 this_file) as [r|].
  2:{ erewrite bindC_err by (apply lift_same; reflexivity). by intros [= <- _]. }
  erewrite bindC_ok by (apply lift_same; reflexivity).
  rewrite examples_checked.
  destruct (_ && _); cbn [negb].
  2:{ unfold lift, raise, missing_examples. by intros [= <- _]. }
  revert c err c'.
  match goal with |- ∀ c e c', ?m c = _ → _ => change (never_value_error_C m) end.
  assert (Hload : ∀ p m c im c',
            load_example convert_data resize_data p m c = (Ok im, c') →
            size im = enforced_size).
  { intros p m c im c'. unfold load_example, mbind, C_bind, lift.
    destruct (image_open p (disk c)) as [[im0|e] w]; [|done]. by intros [= <- _]. }
  apply (nveC_bind _ _ (λ im, size im = enforced_size));
    [apply nveC_load_example | apply Hload | intros test_img Htest].
  apply (nveC_bind _ _ (λ im, size im = enforced_size));
    [apply nveC_load_example | apply Hload | intros mask_img Hmask].
  apply (nveC_bind _ _ (λ im, size im = enforced_size));
    [apply nveC_load_example | apply Hload | intros ex_img Hex].
  apply (nveC_bind _ _ (λ s, sample_size s = 256)).
  { apply nveC_lift, nve_init. }
  { intros c s c' H. unfold lift in H.
    destruct (init _ _ _ _ _ (disk c)) as [r0 w] eqn:Hi. injection H as -> _.
    by apply init_ok_inv in Hi as [r' ->]. }
  intros service Hsize.
  apply nveC_seq; [apply nveC_print | intros _].
  apply nveC_seq.
  { apply nveC_lift.
    assert (Hsz : sizes_ok service test_img mask_img ex_img).
    { unfold sizes_ok. repeat constructor; cbv beta; rewrite Hsize; assumption. }
    apply nve_seq; [apply nve_clear_io_dirs | intros _].
    apply nve_seq; [by apply nve_save_triplet | intros _].
    apply nve_seq; [|intros _; apply nve_load_loop].
    intros w e w'. unfold _run_script, subprocess_run_check.
    destruct (script _ _ _) as [f' rc].
    by case_bool_decide; intros [= <- _]. }
  intros outputs. apply nveC_seq; [|intros _; apply nveC_print].
  destruct outputs as [|first rest].
  - unfold lift, raise. by intros c e c' [= <- _].
  - apply nveC_lift, nve_save.
Qed.

(** X17. On a disk with the three example images and the staging
    directories in place, when the process exits with 0 and leaves an
    image as sample 0, [main] succeeds: it spawns that one process,
    writes the RGB conversion of sample 0 to [examples/reconstructed.png]
    (provided the process left the examples directory in place and no
    directory of that name), and prints its two lines. *)
Theorem main_saves_first_sample this_file service_file r c t0 m0 e0 f' sample :
  Paths.parents1 this_file = Some r →
  stat (fs (disk c)) ("test.png" :: "examples" :: "service" :: r) = Some (File (Png t0)) →
  stat (fs (disk c)) ("mask.png" :: "examples" :: "service" :: r) = Some (File (Png m0)) →
  stat (fs (disk c)) ("exemplar.png" :: "examples" :: "service" :: r)
    = Some (File (Png e0)) →
  staging_ok (attributes r default_psp_ckpt_rel default_exegan_ckpt_rel 256)
    (fs (disk c)) →
  script (script_cmd (attributes r default_psp_ckpt_rel default_exegan_ckpt_rel 256) 1) r
    (fs (stage (attributes r default_psp_ckpt_rel default_exegan_ckpt_rel 256)
           (prepared RGB t0) (prepared L m0) (prepared RGB e0) (disk c)).2)
    = (f', 0) →
  output_is (attributes r default_psp_ckpt_rel default_exegan_ckpt_rel 256) f' 0 sample →
  stat f' ("examples" :: "service" :: r) = Some Dir →
  stat f' ("reconstructed.png" :: "examples" :: "service" :: r) ≠ Some Dir →
  ∃ c',
    main this_file service_file c = (Ok tt, c')
    ∧ stdout c'
        = stdout c
            ++ ["Running EXE-GAN guided recovery...";
                "Saved reconstructed image to: "
                +:+ Paths.str ("reconstructed.png" :: "examples" :: "service" :: r)]
    ∧ stat (fs (disk c')) ("reconstructed.png" :: "examples" :: "service" :: r)
        = Some (File (Png (convert convert_data RGB sample)))
    ∧ spawns (trace (disk c'))
        = spawns (trace (disk c))
            ++ [(script_cmd (attributes r default_psp_ckpt_rel default_exegan_ckpt_rel 256) 1,
                 r, 0)].
Proof.
  intros Hroot Ht Hm He Hok Hsc Hout Hdir Hfree.
  set (self := attributes r default_psp_ckpt_rel default_exegan_ckpt_rel 256) in *.
  assert (Hsz : sizes_ok self (prepared RGB t0) (prepared L m0) (prepared RGB e0)).
  { by repeat constructor. }
  destruct (stage_ok self _ _ _ (disk c) Hok Hsz) as (f1 & us & Hst & _).
  pose proof (quiet_stage _ _ _ _ _ _ _ Hst) as Hq. cbn [trace] in Hq.
  rewrite Hst in Hsc. cbn [snd] in Hsc.
  unfold TestRun.main. rewrite Hroot.
  erewrite bindC_ok by (apply lift_same; reflexivity).
  rewrite examples_checked. unfold Paths.child. rewrite Ht, Hm, He.
  rewrite !bool_decide_eq_true_2 by eauto. cbn [andb negb].
  unfold load_example.
  do 3 (erewrite bindC_ok;
        [|erewrite bindC_ok; [reflexivity|];
          apply lift_same; unfold image_open; by (rewrite Ht || rewrite Hm || rewrite He)]).
  erewrite bindC_ok.
  2:{ apply lift_same. unfold init. cbn [resolve_root].
      erewrite bind_ok by reflexivity.
      erewrite bind_ok by (apply mkdirs_noop, (proj1 Hok)). reflexivity. }
  erewrite bindC_ok by reflexivity.
  erewrite bindC_ok.
  2:{ apply lift_run. fold self. erewrite run_after_success by eassumption.
      unfold _load_outputs. change (range 1) with [0].
      apply (load_loop_ok _ _ _ [sample]). by repeat constructor. }
  erewrite bindC_ok.
  2:{ apply lift_run. cbn [disk]. apply save_ok; cbn [log set_fs fs]; done. }
  eexists. split; [reflexivity|]. cbn [stdout disk log set_fs fs trace].
  split; [by rewrite <- app_assoc|]. split.
  - by rewrite stat_insert, decide_True.
  - rewrite (spawns_app _ [EvWrite _ _]), (spawns_app _ [EvSpawn _ _ _]), Hq.
    apply app_nil_r.
Qed.

End Driver.

(** ** The further properties at concrete inputs *)

Section MoreInstances.
Import Demo Scenario TestRun.

Local Ltac compute_goal := vm_compute; try reflexivity; try discriminate.

Lemma fresh_without_dirs : ¬ dirs_exist svc (fs fresh).
Proof. intros H. apply Forall_cons in H as [H _]. vm_compute in H. discriminate H. Qed.

Lemma used_dirs_exist : dirs_exist svc (fs used).
Proof. repeat constructor; compute_goal. Qed.

Lemma prepared_staging_ok : staging_ok svc256 (fs prepared_disk).
Proof. split; repeat constructor; compute_goal. Qed.

Lemma pair_of_fst {A B} (x : A * B) (a : A) : x.1 = a → x = (a, x.2).
Proof. destruct x as [a' b]. cbn. by intros ->. Qed.

Lemma output_path_inj_witness : (3 : Z) = 3.
Proof. exact (output_path_inj svc 0 3 3 eq_refl). Defined.

Lemma run_returned_witness :
  sizes_ok svc (rgb 1) (grey 2) (rgb 3) ∧ length [rgb 0; rgb 1] = 2%nat.
Proof.
  destruct (run_returned (writes_samples 2 0) spread svc (rgb 1) (grey 2) (rgb 3) 2
              used [rgb 0; rgb 1]
              (run (writes_samples 2 0) spread svc (rgb 1) (grey 2) (rgb 3) 2 used).2)
    as (Hsz & _ & Hlen & _).
  - apply pair_of_fst. compute_goal.
  - exact (conj Hsz Hlen).
Defined.

(** The target directory is gone: the mask directory, listed before it,
    is cleared, the outputs are still there, and the error names the
    target directory. *)
Lemma run_without_staging_dir_witness :
  ∃ w',
    run (writes_samples 1 0) spread svc (rgb 1) (grey 2) (rgb 3) 1 used_without_target
      = (Err (FileNotFoundError "/srv/EXE-GAN/images/target"), w')
    ∧ fs w' !! ["0.png"; "mask"; "images"; "EXE-GAN"; "srv"] = None
    ∧ fs w' !! output_path svc 0 0 = Some (File (Png (rgb 9))).
Proof.
  destruct (run_without_staging_dir (writes_samples 1 0) spread svc
              (rgb 1) (grey 2) (rgb 3) 1 used_without_target
              [mask_dir svc] (gt_dir svc) [exemplar_dir svc; out_dir svc])
    as (err & us & w' & Hrun & _ & Hfs & Hmissing & _).
  - reflexivity.
  - repeat constructor; compute_goal.
  - compute_goal.
  - exists w'. rewrite !Hfs.
    rewrite (Hmissing ltac:(compute_goal) ltac:(compute_goal)) in Hrun.
    split; [exact Hrun|]. split; compute_goal.
Defined.

Lemma clearing_is_idempotent_witness :
  ∃ w1, _clear_io_dirs svc used = (Ok tt, w1) ∧ _clear_io_dirs svc w1 = (Ok tt, w1).
Proof. exact (clearing_is_idempotent svc used used_dirs_exist). Defined.

Lemma stage_keeps_directories_witness :
  stat (fs (stage svc (rgb 1) (grey 2) (rgb 3) used).2) ("keep" :: out_dir svc)
    = Some Dir.
Proof.
  apply stage_keeps_directories. compute_goal.
Defined.

Lemma init_blocked_by_file_witness :
  init this_file None default_psp_ckpt_rel default_exegan_ckpt_rel 2 blocked
    = (Err (NotADirectoryError ["mask"; "images"; "EXE-GAN"; "srv"]), blocked).
Proof.
  apply (init_blocked_by_file this_file None default_psp_ckpt_rel
           default_exegan_ckpt_rel 2 ["EXE-GAN"; "srv"] blocked (Raw "notes"));
    compute_goal.
Defined.


Lemma adapter_returns_first_sample_witness :
  ∃ w', Api.guided_recovery (writes_samples 2 0) spread svc
          (Png (rgb 1)) (Png (rgb 2)) (Png (rgb 3)) 2 used
        = (Ok (Png (rgb 0)), w').
Proof.
  destruct (adapter_returns_first_sample (writes_samples 2 0) spread svc
              (rgb 1) (rgb 2) (rgb 3) 2 used
              (writes_samples 2 0 (script_cmd svc 2) (repo_root svc)
                 (fs (stage svc (convert spread RGB (rgb 1)) (convert spread L (rgb 2))
                        (convert spread RGB (rgb 3)) used).2)).1
              (rgb 0) [rgb 1])
    as (w' & Hrun & _).
  - exact used_staging_ok.
  - repeat constructor.
  - lia.
  - reflexivity.
  - change (range 2) with [0; 1]. repeat constructor; compute_goal.
  - exists w'. exact Hrun.
Defined.

Lemma adapter_nonpositive_sample_times_witness :
  ∃ w', Api.guided_recovery (writes_samples 0 0) spread svc
          (Png (rgb 1)) (Png (rgb 2)) (Png (rgb 3)) 0 used
        = (Err IndexError, w').
Proof.
  destruct (adapter_nonpositive_sample_times (writes_samples 0 0) spread svc
              (rgb 1) (rgb 2) (rgb 3) 0 used
              (writes_samples 0 0 (script_cmd svc 0) (repo_root svc)
                 (fs (stage svc (convert spread RGB (rgb 1)) (convert spread L (rgb 2))
                        (convert spread RGB (rgb 3)) used).2)).1)
    as (w' & Hrun & _).
  - exact used_staging_ok.
  - repeat constructor.
  - lia.
  - reflexivity.
  - exists w'. exact Hrun.
Defined.

(** Target of the right size, mask and exemplar of the wrong size: the
    error names the mask. *)
Lemma adapter_rejects_wrong_size_witness :
  ∃ w',
    Api.guided_recovery (writes_samples 1 0) spread svc
      (Png (rgb 1)) (Png wide) (Png wide) 1 used
    = (Err (ValueError
              "mask_img must be (2, 2), got (3, 2). Do mask cropping/resizing on the client before calling EXE-GAN."),
       w').
Proof.
  destruct (adapter_rejects_wrong_size (writes_samples 1 0) spread svc
              (rgb 1) wide wide 1 used
              [("test_img", "face", rgb 1)] "mask_img" "mask" wide
              [("exemplar_img", "exemplar", wide)] used_dirs_exist)
    as (w' & Hrun & _).
  - reflexivity.
  - repeat constructor.
  - discriminate.
  - exists w'. exact Hrun.
Defined.

Lemma run_raises_no_size_error_witness :
  CalledProcessError 1 (script_cmd svc 2) ≠ size_error "test_img" "face" (2, 2) (3, 2).
Proof.
  refine (run_raises_no_size_error (writes_samples 2 1) spread svc
            (rgb 1) (grey 2) (rgb 3) 2 used _
            (run (writes_samples 2 1) spread svc (rgb 1) (grey 2) (rgb 3) 2 used).2
            demo_sizes_ok _ "test_img" "face" (2, 2) (3, 2)).
  apply pair_of_fst. compute_goal.
Defined.

Lemma main_without_examples_witness :
  ∃ msg, main (writes_samples 1 0) spread crop driver_file this_file on_empty_disk
         = (Err (FileNotFoundError msg), on_empty_disk).
Proof.
  eexists.
  apply (main_without_examples (writes_samples 1 0) spread crop driver_file this_file
           ["EXE-GAN"; "srv"] on_empty_disk).
  - reflexivity.
  - exists "test.png". split; [left | reflexivity].
Defined.

(** On the prepared disk [main] loads and resizes the examples,
    constructs the service and calls [run]; the process exits with 1,
    and the error is that of the process. *)
Lemma main_raises_no_size_error_witness :
  (main (writes_samples 0 1) spread crop driver_file this_file on_prepared_disk).1
    = Err (CalledProcessError 1 (script_cmd svc256 1))
  ∧ CalledProcessError 1 (script_cmd svc256 1)
    ≠ size_error "test_img" "face" (256, 256) (2, 2).
Proof.
  split; [compute_goal|].
  refine (main_raises_no_size_error (writes_samples 0 1) spread crop
            driver_file this_file on_prepared_disk _
            (main (writes_samples 0 1) spread crop driver_file this_file
               on_prepared_disk).2
            _ "test_img" "face" (256, 256) (2, 2)).
  apply pair_of_fst. compute_goal.
Defined.

Lemma main_saves_first_sample_witness :
  ∃ c', main one_sample spread crop driver_file this_file on_prepared_disk = (Ok tt, c')
        ∧ stdout c'
          = ["Running EXE-GAN guided recovery...";
             "Saved reconstructed image to: /srv/EXE-GAN/service/examples/reconstructed.png"].
Proof.
  destruct (main_saves_first_sample one_sample spread crop driver_file this_file
              ["EXE-GAN"; "srv"] on_prepared_disk (rgb 1) (rgb 2) (grey 3)
              (one_sample (script_cmd svc256 1) ["EXE-GAN"; "srv"]
                 (fs (stage svc256
                        (resize crop enforced_size (convert spread RGB (rgb 1)))
                        (resize crop enforced_size (convert spread L (rgb 2)))
                        (resize crop enforced_size (convert spread RGB (grey 3)))
                        prepared_disk).2)).1
              (big 5 RGBA))
    as (c' & Hrun & Hout & _).
  - reflexivity.
  - compute_goal.
  - compute_goal.
  - compute_goal.
  - exact prepared_staging_ok.
  - reflexivity.
  - compute_goal.
  - compute_goal.
  - compute_goal.
  - exists c'. exact (conj Hrun Hout).
Defined.

End MoreInstances.
